(** * Energy Tetris: a shallow embedding of [app.js] and its engine properties

    The engine of [app.js] keeps its state in module-level variables and
    mutates them from event handlers.  Here the variables are the fields of
    one record [state], every function of the engine is a function on that
    record, and the three ways a JavaScript call can end (a value, a thrown
    [TypeError], no end at all) are the three constructors of [outcome].

    Conventions of the model:
    - JavaScript numbers that the engine keeps (score, level, energy, drop
      interval) are [num]: an integer-valued double, an infinity or [NaN],
      with the rounding of double arithmetic.  Board coordinates and time
      stamps are integers.
    - [Math.floor (Math.random () * n)] is a draw from an oracle stream kept
      in the state, reduced modulo [n]: every index below [n] can come out,
      and nothing else.
    - Canvas drawing ([render], the text painted by [gameOver]) and the
      score/level/energy labels written by [updateUI] are left out: nothing
      in the engine reads them back.  Of the input listeners, the keyboard
      and the buttons are modelled; the touch listeners test [gameStarted]
      and [isPaused] like the keyboard listener and call the same engine
      functions. *)

From Stdlib Require Import ZArith Lia Bool String Ascii.
From stdpp Require Import base list.

Local Open Scope Z_scope.

(** ** A small JavaScript layer *)

Module JS.

(** How a call ends: [Ok v] returns [v]; [Throw] is an uncaught
    [TypeError] (a property read on [undefined]); [OutOfFuel] is a loop
    that was still running when the fuel given to the model ran out. *)
Inductive outcome (A : Type) : Type :=
| Ok (a : A)
| Throw
| OutOfFuel.
Arguments Ok {A} a.
Arguments Throw {A}.
Arguments OutOfFuel {A}.

Definition bind {A B : Type} (m : outcome A) (k : A -> outcome B) : outcome B :=
  match m with
  | Ok a => k a
  | Throw => Throw
  | OutOfFuel => OutOfFuel
  end.

(** *** Numbers

    JavaScript numbers are IEEE 754 doubles.  The counters of the engine only
    ever hold integers, the two infinities and [NaN]; [Int z] is the finite
    double whose value is the integer [z].  An operation on doubles gives the
    double nearest to the exact result (ties go to the even mantissa), and an
    infinity on overflow.  The sign of zero is not kept: no operation of the
    engine tells [-0] from [0]. *)
Inductive num : Type :=
| NaN
| Int (z : Z)
| PInf
| NInf.

(** Whether the integer [z] is a finite double: below [2^53] in absolute
    value, or with no bit below its 53 leading ones, and below [2^1024]. *)
Definition isDouble (z : Z) : bool :=
  let a := Z.abs z in
  (a <? 2 ^ 1024) && ((a <? 2 ^ 53) || (a mod 2 ^ (Z.log2 a - 52) =? 0)).

(** Rounding of [m + r / u] ([0 <= r < u]) to the nearest integer, ties to
    even. *)
Definition nearest (m r u : Z) : Z :=
  if (2 * r >? u) || ((2 * r =? u) && Z.odd m) then m + 1 else m.

(** The double nearest to the integer [a >= 0]; [None] on overflow. *)
Definition roundNonneg (a : Z) : option Z :=
  if a <? 2 ^ 53 then Some a
  else
    let u := 2 ^ (Z.log2 a - 52) in
    let v := nearest (a / u) (a mod u) u * u in
    if v <? 2 ^ 1024 then Some v else None.

(** The double nearest to the integer [z]. *)
Definition roundDouble (z : Z) : num :=
  if z <? 0
  then match roundNonneg (- z) with Some v => Int (- v) | None => NInf end
  else match roundNonneg z with Some v => Int v | None => PInf end.

(** The double nearest to [x / d] for integers [x > 0] and [d > 0], as a
    mantissa [m] and an exponent [e]: its value is [m * 2^e]. *)
Definition quotNonneg (x d : Z) : Z * Z :=
  let scale (e : Z) := if 0 <=? e then (x, d * 2 ^ e) else (x * 2 ^ (- e), d) in
  let e0 := Z.log2 x - Z.log2 d - 52 in
  let e := if fst (scale e0) / snd (scale e0) <? 2 ^ 52 then e0 - 1 else e0 in
  let (n, q) := scale e in
  (nearest (n / q) (n mod q) q, e).

(** [Math.floor] of the double nearest to [x / d], for a double [x] and a
    small positive integer [d]. *)
Definition floorQuot (x d : Z) : Z :=
  if x =? 0 then 0
  else if 0 <? x then
    let (m, e) := quotNonneg x d in
    if 0 <=? e then m * 2 ^ e else m / 2 ^ (- e)
  else
    let (m, e) := quotNonneg (- x) d in
    if 0 <=? e then - (m * 2 ^ e) else - ((m + 2 ^ (- e) - 1) / 2 ^ (- e)).

(** [a + b].  (On an [Int z] that is no double, which is no value of the
    program, the operations are the exact ones.) *)
Definition add (a b : num) : num :=
  match a, b with
  | NaN, _ | _, NaN => NaN
  | Int x, Int y =>
      if isDouble x && isDouble y then roundDouble (x + y) else Int (x + y)
  | PInf, NInf | NInf, PInf => NaN
  | PInf, _ | _, PInf => PInf
  | NInf, _ | _, NInf => NInf
  end.

(** [a - b]. *)
Definition sub (a b : num) : num :=
  match a, b with
  | NaN, _ | _, NaN => NaN
  | Int x, Int y =>
      if isDouble x && isDouble y then roundDouble (x - y) else Int (x - y)
  | PInf, PInf | NInf, NInf => NaN
  | PInf, _ | _, NInf => PInf
  | NInf, _ | _, PInf => NInf
  end.

(** [a * b]. *)
Definition mul (a b : num) : num :=
  match a, b with
  | NaN, _ | _, NaN => NaN
  | Int x, Int y =>
      if isDouble x && isDouble y then roundDouble (x * y) else Int (x * y)
  | Int x, PInf | PInf, Int x =>
      if x =? 0 then NaN else if 0 <? x then PInf else NInf
  | Int x, NInf | NInf, Int x =>
      if x =? 0 then NaN else if 0 <? x then NInf else PInf
  | PInf, PInf | NInf, NInf => PInf
  | PInf, NInf | NInf, PInf => NInf
  end.

(** [Math.floor (a / d)] for a positive integer literal [d]. *)
Definition floor_div (a : num) (d : Z) : num :=
  match a with
  | NaN => NaN
  | Int x => if isDouble x then Int (floorQuot x d) else Int (x / d)
  | PInf => PInf
  | NInf => NInf
  end.

(** [Math.max (a, b)]: [NaN] as soon as one argument is. *)
Definition max (a b : num) : num :=
  match a, b with
  | NaN, _ | _, NaN => NaN
  | PInf, _ | _, PInf => PInf
  | NInf, c | c, NInf => c
  | Int x, Int y => Int (Z.max x y)
  end.

(** [a >= b] and [a > b]: false as soon as one side is [NaN]. *)
Definition geb (a b : num) : bool :=
  match a, b with
  | NaN, _ | _, NaN => false
  | PInf, _ | _, NInf => true
  | Int x, Int y => x >=? y
  | _, _ => false
  end.

Definition gtb (a b : num) : bool :=
  match a, b with
  | NaN, _ | _, NaN => false
  | PInf, PInf | NInf, NInf => false
  | PInf, _ | _, NInf => true
  | Int x, Int y => x >? y
  | _, _ => false
  end.

(** What a function hands back: [undefined] (a bare [return;] or falling
    off the end) or a boolean. *)
Inductive ret : Type :=
| Undefined
| Bool (b : bool).

Definition truthy_ret (r : ret) : bool :=
  match r with
  | Undefined => false
  | Bool b => b
  end.

(** [s.charAt (i)]: the one-character string at [i], or the empty string
    out of range. *)
Definition charAt (i : nat) (s : string) : string :=
  match String.get i s with
  | Some a => String a EmptyString
  | None => EmptyString
  end.

End JS.

Import JS.

Notation "'do' x <- m ; k" := (bind m (fun x => k))
  (at level 10, x name, m at level 100, k at level 200, only parsing).

(** ** Constants and the shape catalog *)

Definition GRID_WIDTH : Z := 10.
Definition GRID_HEIGHT : Z := 20.
Definition ENERGY_THRESHOLD : Z := 5000.

(** The keys of [SHAPES] and [COLORS], in the order [Object.keys] lists
    them (insertion order). *)
Inductive shapeKey : Type := KI | KO | KT | KS | KZ | KJ | KL.

Definition shapeKeys : list shapeKey := [KI; KO; KT; KS; KZ; KJ; KL].

(** A shape is an array of rows of numbers; a cell is occupied when its
    number is truthy.  A read past the end of a row ([undefined] in
    JavaScript) is represented by [0]: the engine only tests truthiness, and
    no rectangular shape ever reads there. *)
Abbreviation shape := (list (list Z)).

Definition SHAPES (k : shapeKey) : shape :=
  match k with
  | KI => [[1; 1; 1; 1]]
  | KO => [[1; 1]; [1; 1]]
  | KT => [[0; 1; 0]; [1; 1; 1]]
  | KS => [[0; 1; 1]; [1; 1; 0]]
  | KZ => [[1; 1; 0]; [0; 1; 1]]
  | KJ => [[1; 0; 0]; [1; 1; 1]]
  | KL => [[0; 0; 1]; [1; 1; 1]]
  end.

Definition COLORS (k : shapeKey) : string :=
  match k with
  | KI => "#1FB8CD"%string
  | KO => "#FFC185"%string
  | KT => "#B4413C"%string
  | KS => "#5D878F"%string
  | KZ => "#DB4545"%string
  | KJ => "#D2BA4C"%string
  | KL => "#964325"%string
  end.

(** ** The board *)

(** A board cell: the number [0], a color string, or a hole of a sparse
    array (which only a write past the end of a row can leave). *)
Inductive cell : Type :=
| Hole
| Zero
| Tag (color : string).

Abbreviation row := (list cell).
Abbreviation board := (list (list cell)).

(** Truthiness of [grid[y][x]]: [0], [undefined] and the empty string are
    falsy. *)
Definition cell_truthy (c : cell) : bool :=
  match c with
  | Hole => false
  | Zero => false
  | Tag s => negb (String.eqb s EmptyString)
  end.

(** The callback of [every] in [clearLines], [cell !== 0]. *)
Definition cell_nonzero (c : cell) : bool :=
  match c with
  | Zero => false
  | _ => true
  end.

(** [r[x]] as a truth value; [undefined] (out of range) is falsy. *)
Definition row_truthy (r : row) (x : Z) : bool :=
  if x <? 0 then false
  else match r !! Z.to_nat x with
       | Some c => cell_truthy c
       | None => false
       end.

(** [r[x] = v].  Inside the row it replaces the element; past the end
    JavaScript grows the array and leaves holes; at a negative [x] it sets a
    property that is no array element, and no code of the engine reads a
    negative column back ([checkCollision] returns before it would). *)
Definition row_set (r : row) (x : Z) (v : cell) : row :=
  if x <? 0 then r
  else if x <? Z.of_nat (length r) then <[Z.to_nat x := v]> r
  else r ++ replicate (Z.to_nat x - length r) Hole ++ [v].

(** [Array(GRID_WIDTH).fill(0)] and [resetGrid]. *)
Definition emptyRow : row := replicate (Z.to_nat GRID_WIDTH) Zero.
Definition resetGrid : board := replicate (Z.to_nat GRID_HEIGHT) emptyRow.

(** [grid[row].every(cell => cell !== 0)]; [every] does not visit holes. *)
Definition rowFull (r : row) : bool := forallb cell_nonzero r.

(** ** The collision check *)

Definition truthy (v : Z) : bool := negb (v =? 0).

(** The inner loop of [checkCollision] from column [col] on, over the
    remaining cells of one shape row.  [Ok true] is the early
    [return true]; [Ok false] means the row was scanned to its end. *)
Fixpoint checkCollision_cols (grid : board) (x newY col : Z) (cells : list Z)
  : outcome bool :=
  match cells with
  | [] => Ok false
  | v :: rest =>
      if truthy v then
        let newX := x + col in
        if (newX <? 0) || (newX >=? GRID_WIDTH) || (newY >=? GRID_HEIGHT)
        then Ok true
        else if newY >=? 0 then
          match grid !! Z.to_nat newY with
          | None => Throw
          | Some r =>
              if row_truthy r newX then Ok true
              else checkCollision_cols grid x newY (col + 1) rest
          end
        else checkCollision_cols grid x newY (col + 1) rest
      else checkCollision_cols grid x newY (col + 1) rest
  end.

(** The outer loop of [checkCollision] from row [row] on. *)
Fixpoint checkCollision_rows (grid : board) (x y rw : Z) (rows : shape)
  : outcome bool :=
  match rows with
  | [] => Ok false
  | cells :: rest =>
      do hit <- checkCollision_cols grid x (y + rw) 0 cells;
      if hit then Ok true
      else checkCollision_rows grid x y (rw + 1) rest
  end.

Definition checkCollision (grid : board) (x y : Z) (sh : shape) : outcome bool :=
  checkCollision_rows grid x y 0 sh.

(** ** The engine state *)

(** The active piece.  [movePiece] assigns its [x] and [y] in place and
    [rotatePiece] assigns a freshly built [shape]; the arrays of [SHAPES]
    that a new piece points to are never written, so pieces share nothing
    that changes. *)
Record piece : Type := Piece {
  piece_shape : shape;
  piece_color : string;
  piece_x : Z;
  piece_y : Z
}.

(** The module-level variables of [app.js], the two DOM properties the
    treasure code lives in ([treasureCode] is the text of [#treasureCode],
    [treasureCardHidden] the [hidden] class of [#treasureCard]), and the
    source of [Math.random]: [entropy] is the stream, [draws] the number of
    values taken from it so far.  [gameLoop] is [true] while the variable
    holds an animation-frame handle and [false] while it is [null]. *)
Record state : Type := State {
  grid : board;
  currentPiece : option piece;
  gameLoop : bool;
  score : num;
  level : num;
  energy : num;
  isPaused : bool;
  gameStarted : bool;
  dropInterval : num;
  lastDropTime : Z;
  treasureUnlocked : bool;
  treasureCode : string;
  treasureCardHidden : bool;
  entropy : nat -> nat;
  draws : nat
}.

Definition set_grid (v : board) (s : state) : state :=
  {| grid := v;
     currentPiece := currentPiece s;
     gameLoop := gameLoop s;
     score := score s;
     level := level s;
     energy := energy s;
     isPaused := isPaused s;
     gameStarted := gameStarted s;
     dropInterval := dropInterval s;
     lastDropTime := lastDropTime s;
     treasureUnlocked := treasureUnlocked s;
     treasureCode := treasureCode s;
     treasureCardHidden := treasureCardHidden s;
     entropy := entropy s;
     draws := draws s |}.

Definition set_currentPiece (v : option piece) (s : state) : state :=
  {| grid := grid s;
     currentPiece := v;
     gameLoop := gameLoop s;
     score := score s;
     level := level s;
     energy := energy s;
     isPaused := isPaused s;
     gameStarted := gameStarted s;
     dropInterval := dropInterval s;
     lastDropTime := lastDropTime s;
     treasureUnlocked := treasureUnlocked s;
     treasureCode := treasureCode s;
     treasureCardHidden := treasureCardHidden s;
     entropy := entropy s;
     draws := draws s |}.

Definition set_gameLoop (v : bool) (s : state) : state :=
  {| grid := grid s;
     currentPiece := currentPiece s;
     gameLoop := v;
     score := score s;
     level := level s;
     energy := energy s;
     isPaused := isPaused s;
     gameStarted := gameStarted s;
     dropInterval := dropInterval s;
     lastDropTime := lastDropTime s;
     treasureUnlocked := treasureUnlocked s;
     treasureCode := treasureCode s;
     treasureCardHidden := treasureCardHidden s;
     entropy := entropy s;
     draws := draws s |}.

Definition set_score (v : num) (s : state) : state :=
  {| grid := grid s;
     currentPiece := currentPiece s;
     gameLoop := gameLoop s;
     score := v;
     level := level s;
     energy := energy s;
     isPaused := isPaused s;
     gameStarted := gameStarted s;
     dropInterval := dropInterval s;
     lastDropTime := lastDropTime s;
     treasureUnlocked := treasureUnlocked s;
     treasureCode := treasureCode s;
     treasureCardHidden := treasureCardHidden s;
     entropy := entropy s;
     draws := draws s |}.

Definition set_level (v : num) (s : state) : state :=
  {| grid := grid s;
     currentPiece := currentPiece s;
     gameLoop := gameLoop s;
     score := score s;
     level := v;
     energy := energy s;
     isPaused := isPaused s;
     gameStarted := gameStarted s;
     dropInterval := dropInterval s;
     lastDropTime := lastDropTime s;
     treasureUnlocked := treasureUnlocked s;
     treasureCode := treasureCode s;
     treasureCardHidden := treasureCardHidden s;
     entropy := entropy s;
     draws := draws s |}.

Definition set_energy (v : num) (s : state) : state :=
  {| grid := grid s;
     currentPiece := currentPiece s;
     gameLoop := gameLoop s;
     score := score s;
     level := level s;
     energy := v;
     isPaused := isPaused s;
     gameStarted := gameStarted s;
     dropInterval := dropInterval s;
     lastDropTime := lastDropTime s;
     treasureUnlocked := treasureUnlocked s;
     treasureCode := treasureCode s;
     treasureCardHidden := treasureCardHidden s;
     entropy := entropy s;
     draws := draws s |}.

Definition set_isPaused (v : bool) (s : state) : state :=
  {| grid := grid s;
     currentPiece := currentPiece s;
     gameLoop := gameLoop s;
     score := score s;
     level := level s;
     energy := energy s;
     isPaused := v;
     gameStarted := gameStarted s;
     dropInterval := dropInterval s;
     lastDropTime := lastDropTime s;
     treasureUnlocked := treasureUnlocked s;
     treasureCode := treasureCode s;
     treasureCardHidden := treasureCardHidden s;
     entropy := entropy s;
     draws := draws s |}.

Definition set_gameStarted (v : bool) (s : state) : state :=
  {| grid := grid s;
     currentPiece := currentPiece s;
     gameLoop := gameLoop s;
     score := score s;
     level := level s;
     energy := energy s;
     isPaused := isPaused s;
     gameStarted := v;
     dropInterval := dropInterval s;
     lastDropTime := lastDropTime s;
     treasureUnlocked := treasureUnlocked s;
     treasureCode := treasureCode s;
     treasureCardHidden := treasureCardHidden s;
     entropy := entropy s;
     draws := draws s |}.

Definition set_dropInterval (v : num) (s : state) : state :=
  {| grid := grid s;
     currentPiece := currentPiece s;
     gameLoop := gameLoop s;
     score := score s;
     level := level s;
     energy := energy s;
     isPaused := isPaused s;
     gameStarted := gameStarted s;
     dropInterval := v;
     lastDropTime := lastDropTime s;
     treasureUnlocked := treasureUnlocked s;
     treasureCode := treasureCode s;
     treasureCardHidden := treasureCardHidden s;
     entropy := entropy s;
     draws := draws s |}.

Definition set_lastDropTime (v : Z) (s : state) : state :=
  {| grid := grid s;
     currentPiece := currentPiece s;
     gameLoop := gameLoop s;
     score := score s;
     level := level s;
     energy := energy s;
     isPaused := isPaused s;
     gameStarted := gameStarted s;
     dropInterval := dropInterval s;
     lastDropTime := v;
     treasureUnlocked := treasureUnlocked s;
     treasureCode := treasureCode s;
     treasureCardHidden := treasureCardHidden s;
     entropy := entropy s;
     draws := draws s |}.

Definition set_treasureUnlocked (v : bool) (s : state) : state :=
  {| grid := grid s;
     currentPiece := currentPiece s;
     gameLoop := gameLoop s;
     score := score s;
     level := level s;
     energy := energy s;
     isPaused := isPaused s;
     gameStarted := gameStarted s;
     dropInterval := dropInterval s;
     lastDropTime := lastDropTime s;
     treasureUnlocked := v;
     treasureCode := treasureCode s;
     treasureCardHidden := treasureCardHidden s;
     entropy := entropy s;
     draws := draws s |}.

Definition set_treasureCode (v : string) (s : state) : state :=
  {| grid := grid s;
     currentPiece := currentPiece s;
     gameLoop := gameLoop s;
     score := score s;
     level := level s;
     energy := energy s;
     isPaused := isPaused s;
     gameStarted := gameStarted s;
     dropInterval := dropInterval s;
     lastDropTime := lastDropTime s;
     treasureUnlocked := treasureUnlocked s;
     treasureCode := v;
     treasureCardHidden := treasureCardHidden s;
     entropy := entropy s;
     draws := draws s |}.

Definition set_treasureCardHidden (v : bool) (s : state) : state :=
  {| grid := grid s;
     currentPiece := currentPiece s;
     gameLoop := gameLoop s;
     score := score s;
     level := level s;
     energy := energy s;
     isPaused := isPaused s;
     gameStarted := gameStarted s;
     dropInterval := dropInterval s;
     lastDropTime := lastDropTime s;
     treasureUnlocked := treasureUnlocked s;
     treasureCode := treasureCode s;
     treasureCardHidden := v;
     entropy := entropy s;
     draws := draws s |}.

Definition set_draws (v : nat) (s : state) : state :=
  {| grid := grid s;
     currentPiece := currentPiece s;
     gameLoop := gameLoop s;
     score := score s;
     level := level s;
     energy := energy s;
     isPaused := isPaused s;
     gameStarted := gameStarted s;
     dropInterval := dropInterval s;
     lastDropTime := lastDropTime s;
     treasureUnlocked := treasureUnlocked s;
     treasureCode := treasureCode s;
     treasureCardHidden := treasureCardHidden s;
     entropy := entropy s;
     draws := v |}.

(** ** The engine *)

(** [Math.floor (Math.random () * n)]: the next value of the stream, below
    [n]. *)
Definition randomIndex (n : nat) (s : state) : nat * state :=
  ((entropy s (draws s) mod n)%nat, set_draws (S (draws s)) s).

Definition resetGame (s : state) : state :=
  set_treasureCardHidden true
    (set_currentPiece None
       (set_dropInterval (Int 1000)
          (set_treasureUnlocked false
             (set_energy (Int 0)
                (set_level (Int 1)
                   (set_score (Int 0)
                      (set_grid resetGrid s))))))).

(** [gameOver]: the session stops and the frame request is cancelled.  The
    piece that could not be placed stays in [currentPiece]. *)
Definition gameOver (s : state) : state :=
  let s1 := set_gameStarted false s in
  if gameLoop s1 then set_gameLoop false s1 else s1.

(** [spawnPiece].  A key index past the catalog would make
    [currentPiece.shape] undefined and [checkCollision] throw on its
    [length]. *)
Definition spawnPiece (s : state) : outcome state :=
  let (i, s1) := randomIndex (length shapeKeys) s in
  match shapeKeys !! i with
  | None => Throw
  | Some randomShape =>
      let p := {| piece_shape := SHAPES randomShape;
                  piece_color := COLORS randomShape;
                  piece_x := GRID_WIDTH / 2 - 1;
                  piece_y := 0 |} in
      let s2 := set_currentPiece (Some p) s1 in
      do hit <- checkCollision (grid s2) (piece_x p) (piece_y p) (piece_shape p);
      Ok (if hit then gameOver s2 else s2)
  end.

(** The alphabet of the treasure code and the loop of
    [generateTreasureCode] with [k] characters still to draw. *)
Definition treasureChars : string := "ABCDEFGHIJKLMNOPQRSTUVWXYZ0123456789"%string.

Fixpoint generateTreasureCode_loop (k : nat) (code : string) (s : state)
  : string * state :=
  match k with
  | O => (code, s)
  | S k' =>
      let (i, s1) := randomIndex (String.length treasureChars) s in
      generateTreasureCode_loop k' (code ++ charAt i treasureChars)%string s1
  end.

Definition generateTreasureCode (s : state) : string * state :=
  generateTreasureCode_loop 8 EmptyString s.

Definition unlockTreasure (s : state) : state :=
  let s1 := set_treasureUnlocked true s in
  let (code, s2) := generateTreasureCode s1 in
  set_treasureCardHidden false (set_treasureCode code s2).

(** One step of the compaction in [clearLines]: [grid.splice (row, 1)]
    followed by [grid.unshift (Array (GRID_WIDTH).fill (0))]. *)
Definition removeRow (rw : nat) (g : board) : board :=
  emptyRow :: delete rw g.

(** The [for] loop of [clearLines] at index [rw] with [linesCleared] rows
    removed so far.  After a removal the source increments [rw] and the loop
    header decrements it again, so the same index is examined once more.
    [grid[rw]] past the end of the board is [undefined], whose [every]
    throws. *)
Fixpoint clearLines_loop (fuel : nat) (rw : Z) (g : board) (linesCleared : nat)
  : outcome (board * nat) :=
  match fuel with
  | O => OutOfFuel
  | S fuel' =>
      if rw >=? 0 then
        match g !! Z.to_nat rw with
        | None => Throw
        | Some r =>
            if rowFull r
            then clearLines_loop fuel' (rw + 1 - 1) (removeRow (Z.to_nat rw) g)
                   (S linesCleared)
            else clearLines_loop fuel' (rw - 1) g linesCleared
        end
      else Ok (g, linesCleared)
  end.

(** Fuel that the loop can never use up: an index is left at most
    [GRID_HEIGHT] times and a row removed at most [GRID_HEIGHT] times
    (see [clearLines_loop_fuel]). *)
Definition clearLines_fuel : nat := S (2 * Z.to_nat GRID_HEIGHT).

(** The table [[0, 100, 300, 500, 800]]; an index past its end reads
    [undefined], and [undefined * level] is [NaN]. *)
Definition basePoints : list Z := [0; 100; 300; 500; 800].

Definition linePoints (linesCleared : nat) (lvl : num) : num :=
  mul (match basePoints !! linesCleared with
       | Some b => Int b
       | None => NaN
       end) lvl.

(** The part of [clearLines] after the loop. *)
Definition awardLines (linesCleared : nat) (s : state) : state :=
  if (0 <? linesCleared)%nat then
    let points := linePoints linesCleared (level s) in
    let s1 := set_score (add (score s) points) s in
    let s2 := set_energy (add (energy s1) points) s1 in
    let s3 := set_level (add (floor_div (score s2) 1000) (Int 1)) s2 in
    let s4 := set_dropInterval
                (max (Int 100)
                   (sub (Int 1000) (mul (sub (level s3) (Int 1)) (Int 100)))) s3 in
    if geb (energy s4) (Int ENERGY_THRESHOLD) && negb (treasureUnlocked s4)
    then unlockTreasure s4
    else s4
  else s.

Definition clearLines (s : state) : outcome state :=
  do r <- clearLines_loop clearLines_fuel (GRID_HEIGHT - 1) (grid s) 0;
  Ok (awardLines (snd r) (set_grid (fst r) s)).

(** The loops of [lockPiece] that copy the piece into the board.  A cell on
    a negative row is dropped; a row index past the board throws on
    [grid[y][x] = ...]. *)
Fixpoint lockPiece_cols (g : board) (color : string) (px y col : Z)
    (cells : list Z) : outcome board :=
  match cells with
  | [] => Ok g
  | v :: rest =>
      if truthy v then
        if y >=? 0 then
          match g !! Z.to_nat y with
          | None => Throw
          | Some r =>
              lockPiece_cols
                (<[Z.to_nat y := row_set r (px + col) (Tag color)]> g)
                color px y (col + 1) rest
          end
        else lockPiece_cols g color px y (col + 1) rest
      else lockPiece_cols g color px y (col + 1) rest
  end.

Fixpoint lockPiece_rows (g : board) (color : string) (px py rw : Z)
    (rows : shape) : outcome board :=
  match rows with
  | [] => Ok g
  | cells :: rest =>
      do g1 <- lockPiece_cols g color px (py + rw) 0 cells;
      lockPiece_rows g1 color px py (rw + 1) rest
  end.

Definition lockCells (g : board) (p : piece) : outcome board :=
  lockPiece_rows g (piece_color p) (piece_x p) (piece_y p) 0 (piece_shape p).

Definition lockPiece (s : state) : outcome state :=
  match currentPiece s with
  | None => Ok s
  | Some p =>
      do g <- lockCells (grid s) p;
      do s1 <- clearLines (set_grid g s);
      spawnPiece s1
  end.

(** The branch of [movePiece] taken when the new position is free: the
    piece [p] gets its new coordinates, and a downward step earns one point
    of score and of energy. *)
Definition movePiece_commit (newX newY dy : Z) (p : piece) (s : state) : state :=
  let s1 := set_currentPiece
              (Some {| piece_shape := piece_shape p;
                       piece_color := piece_color p;
                       piece_x := newX;
                       piece_y := newY |}) s in
  if dy >? 0
  then set_energy (add (energy s1) (Int 1))
         (set_score (add (score s1) (Int 1)) s1)
  else s1.

Definition movePiece (dx dy : Z) (s : state) : outcome (ret * state) :=
  match currentPiece s with
  | None => Ok (Undefined, s)
  | Some p =>
      let newX := piece_x p + dx in
      let newY := piece_y p + dy in
      do hit <- checkCollision (grid s) newX newY (piece_shape p);
      if negb hit then Ok (Bool true, movePiece_commit newX newY dy p s)
      else
        do s1 <- (if dy >? 0 then lockPiece s else Ok s);
        Ok (Bool false, s1)
  end.

(** The matrix built by [rotatePiece]: row [i] of the result is column [i]
    of the shape read from the last row up.  [shape[0]] of an empty shape is
    [undefined], whose [map] throws. *)
Definition rotate (sh : shape) : outcome shape :=
  match sh with
  | [] => Throw
  | first :: _ =>
      Ok (imap (fun i _ => reverse (map (fun r => nth i r 0) sh)) first)
  end.

Definition rotatePiece (s : state) : outcome (ret * state) :=
  match currentPiece s with
  | None => Ok (Undefined, s)
  | Some p =>
      do rotated <- rotate (piece_shape p);
      do hit <- checkCollision (grid s) (piece_x p) (piece_y p) rotated;
      if negb hit then
        Ok (Undefined,
            set_currentPiece
              (Some {| piece_shape := rotated;
                       piece_color := piece_color p;
                       piece_x := piece_x p;
                       piece_y := piece_y p |}) s)
      else Ok (Undefined, s)
  end.

(** The [while] loop of [hardDrop]: [dropDistance] counts the calls of
    [movePiece (0, 1)] that returned a truthy value. *)
Fixpoint hardDrop_loop (fuel : nat) (dropDistance : nat) (s : state)
  : outcome (nat * state) :=
  match fuel with
  | O => OutOfFuel
  | S fuel' =>
      do r <- movePiece 0 1 s;
      if truthy_ret (fst r)
      then hardDrop_loop fuel' (S dropDistance) (snd r)
      else Ok (dropDistance, snd r)
  end.

(** The two assignments that end [hardDrop]: [dropDistance * 2] more score
    and energy. *)
Definition addBonus (dropDistance : nat) (s : state) : state :=
  let s1 := set_score (add (score s) (Int (Z.of_nat dropDistance * 2))) s in
  set_energy (add (energy s1) (Int (Z.of_nat dropDistance * 2))) s1.

Definition hardDrop (fuel : nat) (s : state) : outcome (ret * state) :=
  match currentPiece s with
  | None => Ok (Undefined, s)
  | Some _ =>
      do r <- hardDrop_loop fuel 0 s;
      Ok (Undefined, addBonus (fst r) (snd r))
  end.

(** ** The session around the engine *)

Definition startGame (s : state) : outcome state :=
  let s1 := if gameStarted s && negb (isPaused s) then resetGame s else s in
  let s2 := set_isPaused false (set_gameStarted true s1) in
  do s3 <- (match currentPiece s2 with
            | None => spawnPiece s2
            | Some _ => Ok s2
            end);
  Ok (if gameLoop s3 then s3 else set_gameLoop true s3).

(** [togglePause]; [now] is the value of [Date.now ()]. *)
Definition togglePause (now : Z) (s : state) : state :=
  if negb (gameStarted s) then s
  else
    let s1 := set_isPaused (negb (isPaused s)) s in
    if negb (isPaused s1)
    then set_gameLoop true (set_lastDropTime now s1)
    else s1.

(** [update], the animation-frame callback (the gravity tick). *)
Definition update (timestamp : Z) (s : state) : outcome state :=
  if negb (gameStarted s) || isPaused s then Ok s
  else
    let elapsed := timestamp - lastDropTime s in
    do s1 <- (if gtb (Int elapsed) (dropInterval s)
              then do r <- movePiece 0 1 s;
                   Ok (set_lastDropTime timestamp (snd r))
              else Ok s);
    Ok (set_gameLoop true s1).

(** The keys the [keydown] listener reacts to. *)
Inductive key : Type :=
| ArrowLeft | ArrowRight | ArrowDown | ArrowUp | Space | OtherKey.

Definition onKeydown (fuel : nat) (k : key) (s : state) : outcome state :=
  if negb (gameStarted s) || isPaused s then Ok s
  else
    match k with
    | ArrowLeft => do r <- movePiece (-1) 0 s; Ok (snd r)
    | ArrowRight => do r <- movePiece 1 0 s; Ok (snd r)
    | ArrowDown => do r <- movePiece 0 1 s; Ok (snd r)
    | ArrowUp => do r <- rotatePiece s; Ok (snd r)
    | Space => do r <- hardDrop fuel s; Ok (snd r)
    | OtherKey => Ok s
    end.

(** The buttons wired by [setupButtonControls]; their listeners call the
    engine directly. *)
Inductive button : Type :=
| startBtn | pauseBtn | leftBtn | rightBtn | rotateBtn | downBtn.

Definition onClick (fuel : nat) (now : Z) (b : button) (s : state)
  : outcome state :=
  match b with
  | startBtn => startGame s
  | pauseBtn => Ok (togglePause now s)
  | leftBtn => do r <- movePiece (-1) 0 s; Ok (snd r)
  | rightBtn => do r <- movePiece 1 0 s; Ok (snd r)
  | rotateBtn => do r <- rotatePiece s; Ok (snd r)
  | downBtn => do r <- hardDrop fuel s; Ok (snd r)
  end.

(** The state once [init] has run, for a given stream of random values. *)
Definition initialState (e : nat -> nat) : state :=
  {| grid := resetGrid;
     currentPiece := None;
     gameLoop := false;
     score := Int 0;
     level := Int 1;
     energy := Int 0;
     isPaused := false;
     gameStarted := false;
     dropInterval := Int 1000;
     lastDropTime := 0;
     treasureUnlocked := false;
     treasureCode := EmptyString;
     treasureCardHidden := true;
     entropy := e;
     draws := 0 |}.

(** ** Reference notions the properties are stated with *)

(** The board cell at column [cx] of row [cy], if the board stores one. *)
Definition cellAt (g : board) (cx cy : Z) : option cell :=
  if (cx <? 0) || (cy <? 0) then None
  else match g !! Z.to_nat cy with
       | Some r => r !! Z.to_nat cx
       | None => None
       end.

(** A cell the data model allows: empty, or tagged with a non-empty color. *)
Definition cellOk (c : cell) : bool :=
  match c with
  | Hole => false
  | Zero => true
  | Tag s => negb (String.eqb s EmptyString)
  end.

Definition rowOk (r : row) : bool :=
  (length r =? Z.to_nat GRID_WIDTH)%nat && forallb cellOk r.

(** A board of the data model: [GRID_HEIGHT] rows of [GRID_WIDTH] allowed
    cells. *)
Definition boardOk (g : board) : bool :=
  (length g =? Z.to_nat GRID_HEIGHT)%nat && forallb rowOk g.

(** Column offsets of the truthy cells of a shape row, counted from [col]. *)
Fixpoint occupiedCols (col : Z) (cells : list Z) : list Z :=
  match cells with
  | [] => []
  | v :: rest =>
      if truthy v then col :: occupiedCols (col + 1) rest
      else occupiedCols (col + 1) rest
  end.

(** Offsets [(row, column)] of the occupied cells of a shape, rows counted
    from [rw], in the order the loops of the engine visit them. *)
Fixpoint occupiedFrom (rw : Z) (rows : shape) : list (Z * Z) :=
  match rows with
  | [] => []
  | cells :: rest =>
      map (fun c => (rw, c)) (occupiedCols 0 cells) ++ occupiedFrom (rw + 1) rest
  end.

Definition occupied (sh : shape) : list (Z * Z) := occupiedFrom 0 sh.

(** What [checkCollision] tests at one absolute position. *)
Definition hitAt (g : board) (newX newY : Z) : bool :=
  (newX <? 0) || (newX >=? GRID_WIDTH) || (newY >=? GRID_HEIGHT)
  || ((newY >=? 0)
      && match g !! Z.to_nat newY with
         | Some r => row_truthy r newX
         | None => false
         end).

Definition collides (g : board) (x y : Z) (sh : shape) : bool :=
  existsb (fun rc => hitAt g (x + snd rc) (y + fst rc)) (occupied sh).

(** Whether the piece, where it is, has an occupied cell at column [cx] of
    row [cy]. *)
Definition covers (p : piece) (cx cy : Z) : bool :=
  existsb (fun rc => (piece_x p + snd rc =? cx) && (piece_y p + fst rc =? cy))
    (occupied (piece_shape p)).

(** Number of full rows of a board, and the board [clearLines] is meant to
    leave: as many fresh rows on top as rows were full, above the other rows
    in their order. *)
Definition countFull (g : board) : nat := length (List.filter rowFull g).

Definition keepRows (g : board) : board :=
  List.filter (fun r => negb (rowFull r)) g.

Definition compacted (g : board) : board :=
  replicate (countFull g) emptyRow ++ keepRows g.

(** The board after the loop of [clearLines] has dealt with the rows above
    index [k]: those rows compacted, the rows from [k] on untouched. *)
Definition compactedBelow (k : nat) (g : board) : board :=
  compacted (take k g) ++ drop k g.

Definition noFullRow (g : board) : bool := forallb (fun r => negb (rowFull r)) g.

(** The points of the scoring table as the specification lists them. *)
Definition tablePoints (n : nat) : Z :=
  match n with
  | 1%nat => 100
  | 2%nat => 300
  | 3%nat => 500
  | 4%nat => 800
  | _ => 0
  end.

(** The four orientations of a catalog shape and the orientations of all
    seven. *)
Definition turn (sh : shape) : shape :=
  match rotate sh with
  | Ok r => r
  | _ => sh
  end.

Definition orientations (k : shapeKey) : list shape :=
  [SHAPES k; turn (SHAPES k); turn (turn (SHAPES k));
   turn (turn (turn (SHAPES k)))].

Definition allOrientations : list shape := flat_map orientations shapeKeys.

(** Every occupied cell of the piece is between the side walls and above the
    floor (it may be above the top). *)
Definition inBounds (x y : Z) (sh : shape) : bool :=
  forallb (fun rc => (0 <=? x + snd rc) && (x + snd rc <? GRID_WIDTH)
                     && (y + fst rc <? GRID_HEIGHT)) (occupied sh).

Definition pieceOk (p : piece) : Prop :=
  In (piece_shape p) allOrientations /\
  inBounds (piece_x p) (piece_y p) (piece_shape p) = true /\
  piece_color p <> EmptyString.

(** The states of a running session: a board of the data model without a
    full row, a piece (if any) that is a catalog shape in one of its
    orientations inside the walls, and integer counters in their ranges. *)
Definition stateOk (s : state) : Prop :=
  boardOk (grid s) = true /\
  noFullRow (grid s) = true /\
  (forall p, currentPiece s = Some p -> pieceOk p) /\
  (exists z, score s = Int z /\ 0 <= z) /\
  (exists e, energy s = Int e /\ 0 <= e) /\
  (exists l, level s = Int l /\ 1 <= l).

(** [a <= b] on numbers; nothing is below or above [NaN]. *)
Definition num_le (a b : num) : Prop :=
  match a, b with
  | NaN, _ | _, NaN => False
  | NInf, _ | _, PInf => True
  | Int x, Int y => x <= y
  | _, _ => False
  end.

(** [n] calls of [movePiece (0, 1)] in a row, whatever they return. *)
Fixpoint moveDown (n : nat) (s : state) : outcome state :=
  match n with
  | O => Ok s
  | S n' => do r <- movePiece 0 1 s; moveDown n' (snd r)
  end.

(** Fuel with which the loop of [hardDrop] reaches its end from a state: the
    number of rows between the piece and the floor. *)
Definition dropFuel (s : state) : nat :=
  match currentPiece s with
  | Some p => Z.to_nat (GRID_HEIGHT - piece_y p)
  | None => O
  end.

(** Engine operations in sequence. *)
Inductive op : Type :=
| OpMove (dx dy : Z)
| OpRotate
| OpHardDrop
| OpLock.

Definition runOp (fuel : nat) (o : op) (s : state) : outcome state :=
  match o with
  | OpMove dx dy => do r <- movePiece dx dy s; Ok (snd r)
  | OpRotate => do r <- rotatePiece s; Ok (snd r)
  | OpHardDrop => do r <- hardDrop fuel s; Ok (snd r)
  | OpLock => lockPiece s
  end.

Fixpoint runOps (fuel : nat) (ops : list op) (s : state) : outcome state :=
  match ops with
  | [] => Ok s
  | o :: rest => do s1 <- runOp fuel o s; runOps fuel rest s1
  end.

(** Events of the page in sequence: key presses, button clicks and animation
    frames. *)
Inductive event : Type :=
| Keydown (k : key)
| Click (now : Z) (b : button)
| Frame (timestamp : Z).

Definition handle (fuel : nat) (ev : event) (s : state) : outcome state :=
  match ev with
  | Keydown k => onKeydown fuel k s
  | Click now b => onClick fuel now b s
  | Frame t => update t s
  end.

Fixpoint handleAll (fuel : nat) (evs : list event) (s : state) : outcome state :=
  match evs with
  | [] => Ok s
  | ev :: rest => do s1 <- handle fuel ev s; handleAll fuel rest s1
  end.



(** A session in which five [O] pieces are dropped side by side; the last
    one is brought down to the floor with the down arrow and not yet locked. *)
Definition twoRowsSession : list event :=
  [Click 0 startBtn]
  ++ replicate 4 (Keydown ArrowLeft) ++ [Keydown Space]
  ++ replicate 2 (Keydown ArrowLeft) ++ [Keydown Space]
  ++ [Keydown Space]
  ++ replicate 2 (Keydown ArrowRight) ++ [Keydown Space]
  ++ replicate 4 (Keydown ArrowRight) ++ replicate 18 (Keydown ArrowDown).

(** A session in which five [I] pieces are turned upright and dropped on
    each other in the spawn column, up to the top of the board. *)
Definition topOutSession : list event :=
  Click 0 startBtn
  :: concat (replicate 5 [Keydown ArrowUp; Keydown Space]).

(** A board whose bottom row is full, with 950 points on the counter. *)
Definition oneRowState : state :=
  set_score (Int 950)
    (set_grid (replicate 19 emptyRow ++ [replicate 10 (Tag (COLORS KO))])
       (initialState (fun _ => 0%nat))).

(** A fresh session with the catalog piece [k] at its start position. *)
Definition spawnedState (k : shapeKey) : state :=
  set_currentPiece
    (Some {| piece_shape := SHAPES k; piece_color := COLORS k;
             piece_x := GRID_WIDTH / 2 - 1; piece_y := 0 |})
    (initialState (fun _ => 0%nat)).


(** Four calls of [rotatePiece] in a row. *)
Definition rotatePiece4 (s : state) : outcome (ret * state) :=
  do r1 <- rotatePiece s;
  do r2 <- rotatePiece (snd r1);
  do r3 <- rotatePiece (snd r2);
  rotatePiece (snd r3).

(** The rotation of [rotatePiece] applied four times to a matrix. *)
Definition rotate4 (sh : shape) : outcome shape :=
  do a <- rotate sh;
  do b <- rotate a;
  do c <- rotate b;
  rotate c.

(** ** Counters of a session *)

(** A counter that is not below [lo]: a finite value from [lo] on, or
    [Infinity]. *)
Definition counterOk (lo : Z) (a : num) : Prop :=
  match a with
  | Int z => lo <= z
  | PInf => True
  | _ => False
  end.

(** The states a session keeps to: as [stateOk], but a counter may have
    overflowed to [Infinity]. *)
Definition sessionOk (s : state) : Prop :=
  boardOk (grid s) = true /\
  noFullRow (grid s) = true /\
  (forall p, currentPiece s = Some p -> pieceOk p) /\
  counterOk 0 (score s) /\ counterOk 0 (energy s) /\ counterOk 1 (level s).

(** [n] times [v += 1]. *)
Definition addOnes (n : nat) (v : num) : num :=
  Nat.iter n (fun a => add a (Int 1)) v.

(** ** A session with a high score *)

(** The [I] piece turned upright, brought to column [c] and dropped. *)
Definition columnDrop (c : Z) : list event :=
  Keydown ArrowUp
  :: replicate (Z.to_nat (4 - c)) (Keydown ArrowLeft)
  ++ replicate (Z.to_nat (c - 4)) (Keydown ArrowRight)
  ++ [Keydown Space].

(** Ten upright [I] pieces, one in each column. *)
Definition tenColumns : list event :=
  concat (map columnDrop [0; 1; 2; 3; 4; 5; 6; 7; 8; 9]).

(** A session of [I] pieces only: one dropped flat on the left, six upright
    ones on the right, then 58 times one upright piece per column (the
    fourth completes three rows, the tenth one row), then three more
    columns, and a last upright piece brought down to the floor of column 3
    with the down arrow and not yet locked. *)
Definition highScoreSession : list event :=
  Click 0 startBtn :: replicate 4 (Keydown ArrowLeft) ++ [Keydown Space]
  ++ concat (map columnDrop [4; 5; 6; 7; 8; 9])
  ++ concat (replicate 58 tenColumns)
  ++ concat (map columnDrop [0; 1; 2])
  ++ Keydown ArrowUp :: Keydown ArrowLeft :: replicate 16 (Keydown ArrowDown).

(** The state that session ends in: the piece closes the gap of rows 17
    to 19, and the score is odd and still below [2^53]. *)
Definition highScoreState : state :=
  {| grid := replicate 16 emptyRow
             ++ [replicate 3 (Tag (COLORS KI)) ++ replicate 7 Zero]
             ++ replicate 3 (replicate 3 (Tag (COLORS KI)) ++ [Zero]
                             ++ replicate 6 (Tag (COLORS KI)));
     currentPiece := Some {| piece_shape := [[1]; [1]; [1]; [1]];
                             piece_color := COLORS KI;
                             piece_x := 3; piece_y := 16 |};
     gameLoop := true;
     score := Int 7032817351145945;
     level := Int 7032817351146;
     energy := Int 7032817351145945;
     isPaused := false;
     gameStarted := true;
     dropInterval := Int 100;
     lastDropTime := 0;
     treasureUnlocked := true;
     treasureCode := "AAAAAAAA";
     treasureCardHidden := false;
     entropy := fun _ => 0%nat;
     draws := 599 |}.

(** ** The model on small inputs *)

Example rotate_T : rotate (SHAPES KT) = Ok [[1; 0]; [1; 1]; [1; 0]].
Proof. reflexivity. Qed.

Example rotate_empty : rotate [] = Throw.
Proof. reflexivity. Qed.

Example collision_free_at_spawn : checkCollision resetGrid 4 0 (SHAPES KI) = Ok false.
Proof. reflexivity. Qed.

Example collision_right_wall : checkCollision resetGrid 7 0 (SHAPES KI) = Ok true.
Proof. reflexivity. Qed.

Example collision_above_top : checkCollision resetGrid 4 (-3) (SHAPES KO) = Ok false.
Proof. reflexivity. Qed.

Example collision_short_board : checkCollision [] 0 0 [[1]] = Throw.
Proof. reflexivity. Qed.

Example row_set_inside : row_set [Zero; Zero; Zero] 1 (Tag "c"%string) = [Zero; Tag "c"%string; Zero].
Proof. reflexivity. Qed.

Example row_set_past_end :
  row_set [Zero] 3 (Tag "c"%string) = [Zero; Hole; Hole; Tag "c"%string].
Proof. reflexivity. Qed.

Example linePoints_four : linePoints 4 (Int 3) = Int 2400.
Proof. reflexivity. Qed.

Example linePoints_five : linePoints 5 (Int 3) = NaN.
Proof. reflexivity. Qed.

Example first_frame_after_start :
  handleAll 0 [Click 0 startBtn; Frame 1001] (initialState (fun _ => 2%nat))
  = Ok (set_lastDropTime 1001
          (set_energy (Int 1)
             (set_score (Int 1)
                (set_gameLoop true
                   (set_gameStarted true
                      (set_draws 1
                         (set_currentPiece
                            (Some {| piece_shape := SHAPES KT;
                                     piece_color := COLORS KT;
                                     piece_x := 4; piece_y := 1 |})
                            (initialState (fun _ => 2%nat))))))))).
Proof. reflexivity. Qed.

(** Case analysis on the condition of the first [if] of the goal. *)
Ltac case_if :=
  match goal with
  | |- context [if ?c then _ else _] => destruct c
  end.

(** ** Facts about double arithmetic *)

Lemma pow53_lt_pow1024 : 2 ^ 53 < 2 ^ 1024.
Proof. reflexivity. Qed.

Lemma isDouble_small (z : Z) : Z.abs z < 2 ^ 53 -> isDouble z = true.
Proof.
  intros Hz. unfold isDouble. cbv zeta.
  pose proof pow53_lt_pow1024 as Hbig.
  destruct (Z.ltb_spec (Z.abs z) (2 ^ 1024)) as [_|Hc]; [ | lia].
  destruct (Z.ltb_spec (Z.abs z) (2 ^ 53)) as [_|Hc]; [reflexivity | lia].
Qed.

Lemma roundNonneg_small (a : Z) : a < 2 ^ 53 -> roundNonneg a = Some a.
Proof.
  intros Ha. unfold roundNonneg.
  destruct (Z.ltb_spec a (2 ^ 53)) as [_|Hc]; [reflexivity | lia].
Qed.

Lemma roundDouble_small (z : Z) : Z.abs z < 2 ^ 53 -> roundDouble z = Int z.
Proof.
  intros Hz. unfold roundDouble.
  destruct (Z.ltb_spec z 0) as [Hneg|Hpos].
  - rewrite roundNonneg_small by lia. f_equal. lia.
  - rewrite roundNonneg_small by lia. reflexivity.
Qed.

Lemma add_exact (x y : Z) :
  Z.abs x < 2 ^ 53 -> Z.abs y < 2 ^ 53 -> Z.abs (x + y) < 2 ^ 53 ->
  add (Int x) (Int y) = Int (x + y).
Proof.
  intros Hx Hy Hxy. unfold add.
  rewrite (isDouble_small x Hx), (isDouble_small y Hy). cbn [andb].
  apply roundDouble_small, Hxy.
Qed.

Lemma sub_exact (x y : Z) :
  Z.abs x < 2 ^ 53 -> Z.abs y < 2 ^ 53 -> Z.abs (x - y) < 2 ^ 53 ->
  sub (Int x) (Int y) = Int (x - y).
Proof.
  intros Hx Hy Hxy. unfold sub.
  rewrite (isDouble_small x Hx), (isDouble_small y Hy). cbn [andb].
  apply roundDouble_small, Hxy.
Qed.

Lemma mul_exact (x y : Z) :
  Z.abs x < 2 ^ 53 -> Z.abs y < 2 ^ 53 -> Z.abs (x * y) < 2 ^ 53 ->
  mul (Int x) (Int y) = Int (x * y).
Proof.
  intros Hx Hy Hxy. unfold mul.
  rewrite (isDouble_small x Hx), (isDouble_small y Hy). cbn [andb].
  apply roundDouble_small, Hxy.
Qed.

Lemma nearest_bounds (m r u : Z) : m <= nearest m r u <= m + 1.
Proof. unfold nearest. destruct (_ || _); lia. Qed.

(** Rounding never goes below a double that the exact value is not below. *)
Lemma roundNonneg_above (x y : Z) :
  isDouble x = true -> 0 <= x <= y ->
  match roundNonneg y with
  | Some v => x <= v
  | None => True
  end.
Proof.
  intros Hx [Hx0 Hxy]. unfold roundNonneg.
  destruct (Z.ltb_spec y (2 ^ 53)) as [Hsmall|Hbig]; [exact Hxy | ].
  cbv zeta.
  set (u := 2 ^ (Z.log2 y - 52)).
  destruct (nearest (y / u) (y mod u) u * u <? 2 ^ 1024); [ | exact I].
  assert (Hy0 : 0 < y) by (assert (0 < 2 ^ 53) by reflexivity; lia).
  pose proof (Z.log2_spec y Hy0) as [Hlo Hhi].
  assert (Hlog : 53 <= Z.log2 y).
  { apply Z.log2_le_pow2; [exact Hy0 | exact Hbig]. }
  assert (Hu : 0 < u) by (apply Z.pow_pos_nonneg; lia).
  assert (Hpow : 2 ^ Z.log2 y = 2 ^ 52 * u).
  { unfold u. rewrite <- Z.pow_add_r by lia. f_equal. lia. }
  assert (Hm : 2 ^ 52 <= y / u).
  { apply Z.div_le_lower_bound; [exact Hu | ]. rewrite Z.mul_comm, <- Hpow. exact Hlo. }
  pose proof (nearest_bounds (y / u) (y mod u) u) as [Hn _].
  assert (Hdown : (y / u) * u <= nearest (y / u) (y mod u) u * u)
    by (apply Z.mul_le_mono_nonneg_r; lia).
  assert (Hgoal : x <= (y / u) * u); [ | lia].
  destruct (Z.eq_dec x 0) as [->|Hxne]; [apply Z.mul_nonneg_nonneg; lia | ].
  assert (Hxpos : 0 < x) by lia.
  pose proof (Z.log2_spec x Hxpos) as [Hxlo Hxhi].
  pose proof (Z.log2_le_mono x y Hxy) as Hmono.
  destruct (Z.eq_dec (Z.log2 x) (Z.log2 y)) as [Heq|Hne].
  - (* same binade: [x] is a multiple of [u] *)
    unfold isDouble in Hx. cbv zeta in Hx.
    rewrite Z.abs_eq in Hx by lia.
    apply andb_true_iff in Hx as [_ Hx].
    apply orb_true_iff in Hx as [Hx|Hx].
    + apply Z.ltb_lt in Hx.
      assert (2 ^ 53 <= 2 ^ Z.log2 x)
        by (apply Z.pow_le_mono_r; lia).
      lia.
    + apply Z.eqb_eq in Hx. rewrite Heq in Hx. fold u in Hx.
      pose proof (Z.div_mod x u ltac:(lia)) as Hdm. rewrite Hx in Hdm.
      assert (x / u <= y / u) by (apply Z.div_le_mono; lia).
      assert ((x / u) * u <= (y / u) * u) by (apply Z.mul_le_mono_nonneg_r; lia).
      lia.
  - (* lower binade: [x] is below the first double of the binade of [y] *)
    assert (Hlt : Z.succ (Z.log2 x) <= Z.log2 y) by lia.
    assert (2 ^ Z.succ (Z.log2 x) <= 2 ^ Z.log2 y)
      by (apply Z.pow_le_mono_r; lia).
    assert (2 ^ 52 * u <= (y / u) * u) by (apply Z.mul_le_mono_nonneg_r; lia).
    lia.
Qed.

Lemma roundNonneg_nonneg (y v : Z) : 0 <= y -> roundNonneg y = Some v -> 0 <= v.
Proof.
  intros Hy Hv.
  pose proof (roundNonneg_above 0 y eq_refl (conj (Z.le_refl 0) Hy)) as H.
  rewrite Hv in H. exact H.
Qed.

(** Adding a number that is not negative to a counter leaves it a counter
    and does not lower it. *)
Lemma add_counter (lo : Z) (a p : num) :
  0 <= lo -> counterOk lo a -> counterOk 0 p ->
  counterOk lo (add a p) /\ num_le a (add a p).
Proof.
  intros Hlo Ha Hp.
  destruct a as [|x| |]; try contradiction;
    destruct p as [|y| |]; try contradiction; simpl in *;
    try (split; exact I).
  destruct (isDouble x) eqn:Hdx; [ | cbn; split; lia].
  destruct (isDouble y); [ | cbn; split; lia].
  cbn [andb]. unfold roundDouble.
  destruct (Z.ltb_spec (x + y) 0) as [Hc|_]; [lia | ].
  pose proof (roundNonneg_above x (x + y) Hdx ltac:(lia)) as Habove.
  destruct (roundNonneg (x + y)) as [v|]; simpl; [split; lia | split; exact I].
Qed.

Lemma mul_counter (b : Z) (l : num) :
  0 < b -> counterOk 1 l -> counterOk 0 (mul (Int b) l).
Proof.
  intros Hb Hl. destruct l as [|y| |]; try contradiction; simpl in *.
  - assert (0 <= b * y) by (apply Z.mul_nonneg_nonneg; lia).
    destruct (isDouble b && isDouble y); [ | exact H].
    unfold roundDouble.
    destruct (Z.ltb_spec (b * y) 0) as [Hc|_]; [lia | ].
    destruct (roundNonneg (b * y)) as [v|] eqn:Hv; simpl; [ | exact I].
    apply (roundNonneg_nonneg (b * y) v); assumption.
  - destruct (Z.eqb_spec b 0) as [Hc|_]; [lia | ].
    destruct (Z.ltb_spec 0 b) as [_|Hc]; [exact I | lia].
Qed.

Lemma floorQuot_nonneg (x d : Z) : 0 <= x -> 0 < d -> 0 <= floorQuot x d.
Proof.
  intros Hx Hd. unfold floorQuot.
  destruct (Z.eqb_spec x 0) as [_|Hne]; [lia | ].
  destruct (Z.ltb_spec 0 x) as [Hpos|Hc]; [ | lia].
  unfold quotNonneg. cbv zeta.
  set (e0 := Z.log2 x - Z.log2 d - 52).
  match goal with
  | |- context [if ?c then e0 - 1 else e0] => set (e := if c then e0 - 1 else e0)
  end.
  assert (Hscale : forall e', 0 <= fst (if 0 <=? e' then (x, d * 2 ^ e') else (x * 2 ^ (- e'), d))
                       /\ 0 < snd (if 0 <=? e' then (x, d * 2 ^ e') else (x * 2 ^ (- e'), d))).
  { intros e'. destruct (Z.leb_spec 0 e'); simpl.
    - split; [lia | ]. apply Z.mul_pos_pos; [lia | apply Z.pow_pos_nonneg; lia].
    - split; [ | lia]. apply Z.mul_nonneg_nonneg; [lia | apply Z.pow_nonneg; lia]. }
  specialize (Hscale e).
  destruct (if 0 <=? e then (x, d * 2 ^ e) else (x * 2 ^ (- e), d)) as [n q].
  simpl in Hscale. destruct Hscale as [Hn Hq].
  pose proof (nearest_bounds (n / q) (n mod q) q) as [Hlow _].
  assert (0 <= n / q) by (apply Z.div_pos; lia).
  destruct (Z.leb_spec 0 e).
  - apply Z.mul_nonneg_nonneg; [lia | apply Z.pow_nonneg; lia].
  - apply Z.div_pos; [lia | apply Z.pow_pos_nonneg; lia].
Qed.

Lemma floor_div_counter (a : num) (d : Z) :
  0 < d -> counterOk 0 a -> counterOk 0 (floor_div a d).
Proof.
  intros Hd Ha. destruct a as [|x| |]; try contradiction; simpl in *; [ | exact I].
  destruct (isDouble x); simpl.
  - apply floorQuot_nonneg; assumption.
  - apply Z.div_pos; lia.
Qed.

(** Below [2^53] the double quotient by 1000 has the floor of the exact
    one. *)
Lemma floorQuot_1000_exact (x : Z) :
  0 <= x < 2 ^ 53 -> floorQuot x 1000 = x / 1000.
Proof.
  intros [Hx0 Hx]. unfold floorQuot.
  destruct (Z.eqb_spec x 0) as [->|Hne]; [reflexivity | ].
  destruct (Z.ltb_spec 0 x) as [Hpos|Hc]; [ | lia].
  unfold quotNonneg. cbv zeta.
  change (Z.log2 1000) with 9.
  set (e0 := Z.log2 x - 9 - 52).
  match goal with
  | |- context [if ?c then e0 - 1 else e0] => set (e := if c then e0 - 1 else e0)
  end.
  assert (Hlog : Z.log2 x < 53) by (apply Z.log2_lt_pow2; lia).
  assert (He : e <= -9) by (unfold e, e0; destruct (_ <? _); lia).
  destruct (Z.leb_spec 0 e) as [Hc|_]; [lia | ].
  cbn [fst snd].
  set (P := 2 ^ (- e)).
  assert (HP : 512 <= P).
  { change 512 with (2 ^ 9). unfold P. apply Z.pow_le_mono_r; lia. }
  pose proof (Z.div_mod x 1000 ltac:(lia)) as Hx1.
  pose proof (Z.mod_pos_bound x 1000 ltac:(lia)) as Hx2.
  pose proof (Z.div_mod (x * P) 1000 ltac:(lia)) as Hn1.
  pose proof (Z.mod_pos_bound (x * P) 1000 ltac:(lia)) as Hn2.
  set (q0 := x / 1000) in *. set (r0 := x mod 1000) in *.
  set (m := x * P / 1000) in *. set (r := (x * P) mod 1000) in *.
  assert (Hq0 : 0 <= q0) by (apply Z.div_pos; lia).
  (* [m = q0 * P + t] with [0 <= t < P] *)
  destruct (Z.leb_spec 0 e) as [Hc|_]; [lia | ].
  clearbody q0 r0 m r P. clear e0 e He.
  assert (Hprod : 0 <= r0 * P <= 999 * P) by nia.
  assert (Hlow : q0 * P <= m) by nia.
  assert (Hhigh : m < (q0 + 1) * P) by nia.
  unfold nearest.
  destruct ((2 * r >? 1000) || ((2 * r =? 1000) && Z.odd m)) eqn:Hup.
  - assert (Hr : 500 <= r).
    { apply orb_true_iff in Hup as [Hup|Hup].
      - apply Z.gtb_lt in Hup. lia.
      - apply andb_true_iff in Hup as [Hup _]. apply Z.eqb_eq in Hup. lia. }
    assert (Hhigh' : m + 1 < (q0 + 1) * P) by nia.
    symmetry. apply Z.div_unique with (r := m + 1 - q0 * P); lia.
  - symmetry. apply Z.div_unique with (r := m - q0 * P); lia.
Qed.

Lemma floor_div_exact (x : Z) :
  0 <= x < 2 ^ 53 -> floor_div (Int x) 1000 = Int (x / 1000).
Proof.
  intros Hx. unfold floor_div.
  rewrite isDouble_small by lia. f_equal. apply floorQuot_1000_exact, Hx.
Qed.

(** [v += 1] is exact up to [2^53]. *)
Lemma add_one_exact (z : Z) :
  0 <= z < 2 ^ 53 -> add (Int z) (Int 1) = Int (z + 1).
Proof.
  intros Hz. destruct (Z.eq_dec z (2 ^ 53 - 1)) as [-> | Hne].
  - vm_compute. reflexivity.
  - apply add_exact; rewrite ?Z.abs_eq by lia; lia.
Qed.

Lemma pow2_double (k : Z) : 1 <= k -> 2 ^ k = 2 * 2 ^ (k - 1).
Proof. intros Hk. rewrite <- Z.pow_succ_r by lia. f_equal. lia. Qed.

(** From [2^53] on the doubles are even, and [v += 1] is no longer the
    increase by 1. *)
Lemma add_one_inexact (z : Z) :
  isDouble z = true -> 2 ^ 53 <= z -> add (Int z) (Int 1) <> Int (z + 1).
Proof.
  intros Hd Hz. unfold add. rewrite Hd. change (isDouble 1) with true. cbn [andb].
  assert (Hlog : 53 <= Z.log2 z) by (apply Z.log2_le_pow2; lia).
  assert (Hlog' : 53 <= Z.log2 (z + 1)) by (apply Z.log2_le_pow2; lia).
  assert (Heven : exists q, z = 2 * q).
  { unfold isDouble in Hd. cbv zeta in Hd. rewrite Z.abs_eq in Hd by lia.
    apply andb_true_iff in Hd as [_ Hd].
    apply orb_true_iff in Hd as [Hd | Hd]; [lia | ].
    apply Z.eqb_eq in Hd.
    exists (2 ^ (Z.log2 z - 52 - 1) * (z / 2 ^ (Z.log2 z - 52))).
    pose proof (Z.div_mod z (2 ^ (Z.log2 z - 52))) as Hdm.
    rewrite Hd, (pow2_double (Z.log2 z - 52)) in Hdm by lia.
    rewrite (pow2_double (Z.log2 z - 52)) by lia.
    assert (Hpos : 0 < 2 ^ (Z.log2 z - 52 - 1)) by (apply Z.pow_pos_nonneg; lia).
    lia. }
  destruct Heven as [q ->].
  unfold roundDouble. destruct (Z.ltb_spec (2 * q + 1) 0) as [Hc|_]; [lia | ].
  unfold roundNonneg. destruct (Z.ltb_spec (2 * q + 1) (2 ^ 53)) as [Hc|_]; [lia | ].
  cbv zeta. rewrite (pow2_double (Z.log2 (2 * q + 1) - 52)) by lia.
  destruct (_ <? 2 ^ 1024); [ | discriminate].
  intros H. injection H as H. lia.
Qed.

(** ** Facts about the collision check *)

Lemma existsb_map_comp {A B : Type} (f : B -> bool) (h : A -> B) (l : list A) :
  existsb f (map h l) = existsb (fun a => f (h a)) l.
Proof. induction l as [|a l IH]; simpl; [reflexivity | rewrite IH; reflexivity]. Qed.

Lemma occupiedCols_spec (cells : list Z) (col c : Z) :
  In c (occupiedCols col cells) <->
  exists (j : nat) (v : Z), c = col + Z.of_nat j /\ cells !! j = Some v /\ v <> 0.
Proof.
  revert col. induction cells as [|v rest IH]; intros col; simpl.
  - split; [tauto | intros (j & w & _ & H & _); discriminate].
  - assert (Htail : In c (occupiedCols (col + 1) rest) <->
      exists (j : nat) (w : Z),
        c = col + Z.of_nat (S j) /\ (v :: rest) !! S j = Some w /\ w <> 0).
    { rewrite IH. split; intros (j & w & -> & Hj & Hw); exists j, w;
        (split; [lia | split; [exact Hj | exact Hw]]). }
    assert (Hhead : truthy v = true /\ c = col <->
      exists w : Z, c = col + Z.of_nat 0 /\ (v :: rest) !! 0%nat = Some w /\ w <> 0).
    { unfold truthy. split.
      - intros [Hv ->]. exists v. split; [lia | split; [reflexivity | ]].
        intros ->. discriminate.
      - intros (w & -> & Hw & Hne). injection Hw as ->.
        destruct (Z.eqb_spec w 0); [contradiction | split; [reflexivity | lia]]. }
    assert (Hsplit : (exists (j : nat) (w : Z),
        c = col + Z.of_nat j /\ (v :: rest) !! j = Some w /\ w <> 0) <->
      (truthy v = true /\ c = col) \/ In c (occupiedCols (col + 1) rest)).
    { rewrite Hhead, Htail. split.
      - intros ([|j] & w & H); [left; exists w; exact H | right; exists j, w; exact H].
      - intros [(w & H) | (j & w & H)]; [exists 0%nat, w; exact H | exists (S j), w; exact H]. }
    rewrite Hsplit. destruct (truthy v); simpl.
    + split; [intros [<- | H]; [left; split; reflexivity | right; exact H]
             | intros [[_ ->] | H]; [left; reflexivity | right; exact H]].
    + split; [intros H; right; exact H | intros [[H _] | H]; [discriminate | exact H]].
Qed.

Lemma occupiedFrom_spec (rows : shape) (rw r c : Z) :
  In (r, c) (occupiedFrom rw rows) <->
  exists (i j : nat) (cells : list Z) (v : Z),
    r = rw + Z.of_nat i /\ c = Z.of_nat j /\
    rows !! i = Some cells /\ cells !! j = Some v /\ v <> 0.
Proof.
  revert rw. induction rows as [|cells rest IH]; intros rw; simpl.
  - split; [tauto | intros (i & j & cs & v & _ & _ & H & _); discriminate].
  - rewrite in_app_iff, in_map_iff, IH. split.
    + intros [(c' & Heq & Hin) | (i & j & cs & v & -> & -> & Hi & Hj & Hv)].
      * injection Heq as <- <-.
        apply occupiedCols_spec in Hin as (j & v & -> & Hj & Hv).
        exists 0%nat, j, cells, v.
        split; [lia | split; [lia | split; [reflexivity | split; assumption]]].
      * exists (S i), j, cs, v.
        split; [lia | split; [lia | split; [exact Hi | split; assumption]]].
    + intros ([|i] & j & cs & v & -> & -> & Hi & Hj & Hv).
      * left. simpl in Hi. injection Hi as ->. exists (Z.of_nat j). split.
        -- f_equal. lia.
        -- apply occupiedCols_spec. exists j, v.
           split; [lia | split; assumption].
      * right. exists i, j, cs, v.
        split; [lia | split; [lia | split; [exact Hi | split; assumption]]].
Qed.

Lemma occupied_spec (sh : shape) (r c : Z) :
  In (r, c) (occupied sh) <->
  exists (i j : nat) (cells : list Z) (v : Z),
    r = Z.of_nat i /\ c = Z.of_nat j /\
    sh !! i = Some cells /\ cells !! j = Some v /\ v <> 0.
Proof. unfold occupied. rewrite occupiedFrom_spec. reflexivity. Qed.

(** On a board with all its rows the inner loop never throws and answers
    whether one of the occupied cells of the row hits. *)
Lemma checkCollision_cols_collides (g : board) (x newY col : Z) (cells : list Z) :
  length g = Z.to_nat GRID_HEIGHT ->
  checkCollision_cols g x newY col cells
  = Ok (existsb (fun c => hitAt g (x + c) newY) (occupiedCols col cells)).
Proof.
  intros Hlen. revert col.
  induction cells as [|v rest IH]; intros col; simpl; [reflexivity | ].
  destruct (truthy v); [ | apply IH].
  simpl. unfold hitAt at 1.
  destruct ((x + col <? 0) || (x + col >=? GRID_WIDTH) || (newY >=? GRID_HEIGHT)) eqn:Hout;
    [reflexivity | ].
  simpl. destruct (newY >=? 0) eqn:Hy; simpl; [ | apply IH].
  destruct (g !! Z.to_nat newY) as [r|] eqn:Hr.
  - destruct (row_truthy r (x + col)); [reflexivity | apply IH].
  - apply lookup_ge_None in Hr.
    apply orb_false_iff in Hout as [_ Hh].
    unfold GRID_HEIGHT in *. lia.
Qed.

Lemma checkCollision_rows_collides (g : board) (x y rw : Z) (rows : shape) :
  length g = Z.to_nat GRID_HEIGHT ->
  checkCollision_rows g x y rw rows
  = Ok (existsb (fun rc => hitAt g (x + snd rc) (y + fst rc)) (occupiedFrom rw rows)).
Proof.
  intros Hlen. revert rw.
  induction rows as [|cells rest IH]; intros rw; simpl; [reflexivity | ].
  rewrite (checkCollision_cols_collides g x (y + rw) 0 cells Hlen). simpl.
  rewrite existsb_app, existsb_map_comp. simpl.
  destruct (existsb _ (occupiedCols 0 cells)); [reflexivity | apply IH].
Qed.

Lemma checkCollision_collides (g : board) (x y : Z) (sh : shape) :
  length g = Z.to_nat GRID_HEIGHT ->
  checkCollision g x y sh = Ok (collides g x y sh).
Proof. intros Hlen. apply checkCollision_rows_collides, Hlen. Qed.

(** ** Boards of the data model *)

Lemma boardOk_length (g : board) :
  boardOk g = true -> length g = Z.to_nat GRID_HEIGHT.
Proof.
  unfold boardOk. intros H. apply andb_true_iff in H as [H _].
  apply Nat.eqb_eq in H. exact H.
Qed.

Lemma boardOk_lookup (g : board) (i : nat) (r : row) :
  boardOk g = true -> g !! i = Some r -> rowOk r = true.
Proof.
  unfold boardOk. intros H Hi. apply andb_true_iff in H as [_ H].
  rewrite forallb_forall in H. apply H.
  apply list_elem_of_In. eapply list_elem_of_lookup_2, Hi.
Qed.

Lemma rowOk_length (r : row) : rowOk r = true -> length r = Z.to_nat GRID_WIDTH.
Proof.
  unfold rowOk. intros H. apply andb_true_iff in H as [H _].
  apply Nat.eqb_eq in H. exact H.
Qed.

Lemma rowOk_lookup (r : row) (j : nat) (c : cell) :
  rowOk r = true -> r !! j = Some c -> cellOk c = true.
Proof.
  unfold rowOk. intros H Hj. apply andb_true_iff in H as [_ H].
  rewrite forallb_forall in H. apply H.
  apply list_elem_of_In. eapply list_elem_of_lookup_2, Hj.
Qed.

Lemma cellOk_truthy (c : cell) :
  cellOk c = true -> (cell_truthy c = true <-> c <> Zero).
Proof.
  destruct c as [| |s]; simpl; intros H.
  - discriminate.
  - split; [discriminate | intros Hne; contradiction].
  - split; [intros _; discriminate | intros _; exact H].
Qed.

Lemma hitAt_iff (g : board) (cx cy : Z) :
  boardOk g = true ->
  hitAt g cx cy = true <->
  cx < 0 \/ GRID_WIDTH <= cx \/ GRID_HEIGHT <= cy \/
  (0 <= cy /\ exists t : cell, cellAt g cx cy = Some t /\ t <> Zero).
Proof.
  intros Hok. unfold hitAt, cellAt.
  destruct (Z.ltb_spec cx 0) as [Hx0|Hx0]; simpl; [split; [left; lia | reflexivity] | ].
  destruct (Z.geb_spec cx GRID_WIDTH) as [Hxw|Hxw]; simpl;
    [split; [right; left; lia | reflexivity] | ].
  destruct (Z.geb_spec cy GRID_HEIGHT) as [Hyh|Hyh]; simpl;
    [split; [right; right; left; lia | reflexivity] | ].
  destruct (Z.geb_spec cy 0) as [Hy0|Hy0]; simpl.
  - destruct (Z.ltb_spec cy 0) as [Hc|_]; [lia | ].
    destruct (g !! Z.to_nat cy) as [r|] eqn:Hr.
    + pose proof (boardOk_lookup g _ r Hok Hr) as Hrow.
      unfold row_truthy. destruct (Z.ltb_spec cx 0) as [Hc|_]; [lia | ].
      destruct (r !! Z.to_nat cx) as [c|] eqn:Hc.
      * pose proof (cellOk_truthy c (rowOk_lookup r _ c Hrow Hc)) as Hiff.
        rewrite Hiff. split.
        -- intros Hne. right; right; right. split; [lia | exists c; split; [reflexivity | exact Hne]].
        -- intros [H | [H | [H | [_ (t & Ht & Hne)]]]]; try lia.
           injection Ht as <-. exact Hne.
      * apply lookup_ge_None in Hc. apply rowOk_length in Hrow. lia.
    + apply lookup_ge_None in Hr. apply boardOk_length in Hok.
      unfold GRID_HEIGHT in *. lia.
  - split; [discriminate | intros [H | [H | [H | [H _]]]]; lia].
Qed.

Lemma hitAt_above (g g' : board) (cx cy : Z) :
  cy < 0 -> hitAt g' cx cy = hitAt g cx cy.
Proof.
  intros Hy. unfold hitAt.
  destruct (Z.geb_spec cy 0) as [Hc|_]; [lia | ].
  rewrite !andb_false_l. reflexivity.
Qed.

(** C1.  On every board of the data model, for every shape matrix and integer
    position (x, y), [checkCollision] returns, and it returns [true] exactly
    when some occupied cell of the shape, placed at (x, y), lies left of
    column 0, at or right of column [GRID_WIDTH], at or below row
    [GRID_HEIGHT], or on a row [>= 0] whose board cell is not empty.  Cells on
    negative rows are never compared with the board: when every occupied cell
    is on a negative row, the answer is the same on every board. *)
Theorem checkCollision_correct (g : board) (x y : Z) (sh : shape) :
  boardOk g = true ->
  (exists b : bool,
      checkCollision g x y sh = Ok b /\
      (b = true <->
       exists (r c : nat) (cells : list Z) (v : Z),
         sh !! r = Some cells /\ cells !! c = Some v /\ v <> 0 /\
         (x + Z.of_nat c < 0 \/ GRID_WIDTH <= x + Z.of_nat c \/
          GRID_HEIGHT <= y + Z.of_nat r \/
          (0 <= y + Z.of_nat r /\
           exists t : cell,
             cellAt g (x + Z.of_nat c) (y + Z.of_nat r) = Some t /\ t <> Zero))))
  /\
  ((forall (r c : nat) (cells : list Z) (v : Z),
       sh !! r = Some cells -> cells !! c = Some v -> v <> 0 -> y + Z.of_nat r < 0) ->
   forall g' : board,
     boardOk g' = true -> checkCollision g' x y sh = checkCollision g x y sh).
Proof.
  intros Hok. split.
  - exists (collides g x y sh). split.
    + apply checkCollision_collides, boardOk_length, Hok.
    + unfold collides. rewrite existsb_exists. split.
      * intros ([r c] & Hin & Hhit). simpl in Hhit.
        apply occupied_spec in Hin as (i & j & cells & v & -> & -> & Hi & Hj & Hv).
        exists i, j, cells, v.
        split; [exact Hi | split; [exact Hj | split; [exact Hv | ]]].
        apply (hitAt_iff g _ _ Hok), Hhit.
      * intros (i & j & cells & v & Hi & Hj & Hv & Hhit).
        exists (Z.of_nat i, Z.of_nat j). split.
        -- apply occupied_spec. exists i, j, cells, v.
           split; [reflexivity | split; [reflexivity | split; [exact Hi | split; assumption]]].
        -- simpl. apply (hitAt_iff g _ _ Hok), Hhit.
  - intros Habove g' Hok'.
    rewrite (checkCollision_collides g' x y sh (boardOk_length g' Hok')).
    rewrite (checkCollision_collides g x y sh (boardOk_length g Hok)).
    f_equal. unfold collides.
    assert (Hall : forall rc, In rc (occupied sh) -> y + fst rc < 0).
    { intros [r c] Hin.
      apply occupied_spec in Hin as (i & j & cells & v & -> & -> & Hi & Hj & Hv).
      simpl. eapply Habove; eassumption. }
    induction (occupied sh) as [|rc l IH]; simpl; [reflexivity | ].
    rewrite (hitAt_above g g' _ _ (Hall rc (or_introl eq_refl))).
    rewrite IH; [reflexivity | ].
    intros rc' Hin. apply Hall. right. exact Hin.
Qed.

Lemma checkCollision_correct_witness :
  exists b : bool, checkCollision resetGrid 4 19 (SHAPES KO) = Ok b /\ b = true.
Proof.
  destruct (checkCollision_correct resetGrid 4 19 (SHAPES KO) eq_refl)
    as [(b & Hrun & Hiff) _].
  exists b. split; [exact Hrun | ].
  apply Hiff. exists 1%nat, 0%nat, [1; 1], 1.
  split; [reflexivity | split; [reflexivity | split; [lia | ]]].
  right; right; left. unfold GRID_HEIGHT. lia.
Defined.

(** ** Facts about line clearing *)

Lemma emptyRow_not_full : rowFull emptyRow = false.
Proof. reflexivity. Qed.

Lemma countFull_app (g1 g2 : board) :
  countFull (g1 ++ g2) = (countFull g1 + countFull g2)%nat.
Proof. unfold countFull. rewrite List.filter_app, length_app. reflexivity. Qed.

Lemma keepRows_app (g1 g2 : board) : keepRows (g1 ++ g2) = keepRows g1 ++ keepRows g2.
Proof. apply List.filter_app. Qed.

Lemma countFull_le_length (g : board) : (countFull g <= length g)%nat.
Proof. apply List.filter_length_le. Qed.

Lemma replicate_snoc_cons {A : Type} (n : nat) (a : A) (l : list A) :
  replicate n a ++ a :: l = replicate (S n) a ++ l.
Proof. induction n as [|n IH]; simpl; [reflexivity | rewrite IH; reflexivity]. Qed.

Lemma take_delete_same {A : Type} (k : nat) (l : list A) :
  take k (delete k l) = take k l.
Proof.
  revert k. induction l as [|a l IH]; intros [|k]; simpl; try reflexivity.
  rewrite IH. reflexivity.
Qed.

Lemma drop_delete_same {A : Type} (k : nat) (l : list A) :
  drop k (delete k l) = drop (S k) l.
Proof.
  revert k. induction l as [|a l IH]; intros [|k]; simpl; try reflexivity.
  apply IH.
Qed.

Lemma clearLines_loop_below (fuel k : nat) (g : board) (n : nat) :
  (k <= length g)%nat ->
  (k + countFull (take k g) < fuel)%nat ->
  clearLines_loop fuel (Z.of_nat k - 1) g n
  = Ok (compactedBelow k g, (n + countFull (take k g))%nat).
Proof.
  revert k g n. induction fuel as [|fuel IH]; intros k g n Hk Hfuel; [lia | ].
  cbn [clearLines_loop].
  destruct k as [|k].
  - replace (Z.of_nat 0 - 1 >=? 0) with false by reflexivity.
    unfold compactedBelow, compacted. rewrite take_0, drop_0. simpl.
    rewrite Nat.add_0_r. reflexivity.
  - replace (Z.of_nat (S k) - 1) with (Z.of_nat k) by lia.
    destruct (Z.geb_spec (Z.of_nat k) 0) as [_|Hneg]; [ | lia].
    rewrite Nat2Z.id.
    destruct (g !! k) as [r|] eqn:Hr; [ | apply lookup_ge_None in Hr; lia].
    pose proof (take_S_r g k r Hr) as Htake.
    destruct (rowFull r) eqn:Hfull.
    + replace (Z.of_nat k + 1 - 1) with (Z.of_nat (S k) - 1) by lia.
      assert (Hcount : countFull (take (S k) g) = S (countFull (take k g))).
      { rewrite Htake, countFull_app. unfold countFull at 2. simpl.
        rewrite Hfull. simpl. lia. }
      assert (Htake' : take (S k) (removeRow k g) = emptyRow :: take k g).
      { unfold removeRow. cbn [take firstn]. rewrite take_delete_same. reflexivity. }
      rewrite IH.
      * f_equal. f_equal.
        -- unfold compactedBelow, compacted. rewrite Htake'.
           unfold removeRow at 1. cbn [drop]. rewrite drop_delete_same.
           rewrite Htake, countFull_app, keepRows_app.
           unfold countFull at 1 3, keepRows at 1 3. cbn [List.filter].
           rewrite emptyRow_not_full, Hfull. cbn [negb length app].
           fold (countFull (take k g)). fold (keepRows (take k g)).
           rewrite app_nil_r, Nat.add_1_r.
           rewrite <- !app_assoc. cbn [app]. apply replicate_snoc_cons.
        -- rewrite Htake', Hcount. unfold countFull at 1. cbn [List.filter].
           rewrite emptyRow_not_full. fold (countFull (take k g)). lia.
      * unfold removeRow. simpl. rewrite length_delete by (exists r; exact Hr).
        apply lookup_lt_Some in Hr. lia.
      * rewrite Htake'. unfold countFull at 1. cbn [List.filter].
        rewrite emptyRow_not_full. fold (countFull (take k g)). lia.
    + assert (Hcount : countFull (take (S k) g) = countFull (take k g)).
      { rewrite Htake, countFull_app. unfold countFull at 2. simpl.
        rewrite Hfull. simpl. lia. }
      rewrite IH by lia.
      f_equal. f_equal; [ | lia].
      unfold compactedBelow, compacted.
      rewrite Hcount, Htake, keepRows_app.
      unfold keepRows at 3. cbn [List.filter]. rewrite Hfull. cbn [negb].
      rewrite (drop_S g r k Hr). rewrite <- !app_assoc. reflexivity.
Qed.

(** The loop of [clearLines] never runs out of fuel on a board of full
    height: it returns the compacted board and the number of full rows. *)
Lemma clearLines_loop_total (g : board) :
  length g = Z.to_nat GRID_HEIGHT ->
  clearLines_loop clearLines_fuel (GRID_HEIGHT - 1) g 0
  = Ok (compacted g, countFull g).
Proof.
  intros Hlen.
  pose proof (clearLines_loop_below clearLines_fuel (length g) g 0) as H.
  unfold compactedBelow in H.
  rewrite firstn_all, drop_all, app_nil_r in H.
  replace (Z.of_nat (length g) - 1) with (GRID_HEIGHT - 1) in H
    by (rewrite Hlen; reflexivity).
  apply H; [lia | ].
  pose proof (countFull_le_length g) as Hle.
  unfold clearLines_fuel. lia.
Qed.

Lemma clearLines_loop_short (fuel : nat) (rw : Z) (g : board) (n : nat) :
  0 <= rw -> g !! Z.to_nat rw = None ->
  clearLines_loop (S fuel) rw g n = Throw.
Proof.
  intros Hrw Hnone. cbn [clearLines_loop].
  destruct (Z.geb_spec rw 0) as [_|Hc]; [ | lia].
  rewrite Hnone. reflexivity.
Qed.

(** On no board at all does the loop of [clearLines] run out of fuel: a
    board that is too short makes it throw at once. *)
Lemma clearLines_loop_fuel (g : board) :
  clearLines_loop clearLines_fuel (GRID_HEIGHT - 1) g 0 <> OutOfFuel.
Proof.
  destruct (Nat.le_gt_cases (Z.to_nat GRID_HEIGHT) (length g)) as [Hlong|Hshort].
  - pose proof (clearLines_loop_below clearLines_fuel (Z.to_nat GRID_HEIGHT) g 0 Hlong)
      as H.
    change (Z.of_nat (Z.to_nat GRID_HEIGHT) - 1) with (GRID_HEIGHT - 1) in H.
    rewrite H; [discriminate | ].
    pose proof (countFull_le_length (take (Z.to_nat GRID_HEIGHT) g)) as Hle.
    rewrite length_take in Hle. unfold clearLines_fuel. lia.
  - unfold clearLines_fuel. rewrite clearLines_loop_short; [discriminate | | ].
    + unfold GRID_HEIGHT. lia.
    + apply lookup_ge_None. unfold GRID_HEIGHT in *. lia.
Qed.

Lemma clearLines_eq (s : state) :
  length (grid s) = Z.to_nat GRID_HEIGHT ->
  clearLines s
  = Ok (awardLines (countFull (grid s)) (set_grid (compacted (grid s)) s)).
Proof.
  intros Hlen. unfold clearLines. rewrite (clearLines_loop_total _ Hlen).
  reflexivity.
Qed.

(** ** Facts about locking *)

Lemma forallb_insert {A : Type} (f : A -> bool) (l : list A) (i : nat) (a : A) :
  forallb f l = true -> f a = true -> forallb f (<[i := a]> l) = true.
Proof.
  revert i. induction l as [|b l IH]; intros i Hl Ha; [exact Hl | ].
  simpl in Hl. apply andb_true_iff in Hl as [Hb Hl].
  destruct i as [|i]; simpl.
  - rewrite Ha. exact Hl.
  - rewrite Hb. apply IH; assumption.
Qed.

Lemma row_set_ok (r : row) (cx : Z) (color : string) :
  rowOk r = true -> 0 <= cx < GRID_WIDTH -> color <> EmptyString ->
  rowOk (row_set r cx (Tag color)) = true.
Proof.
  intros Hr Hx Hcolor.
  pose proof (rowOk_length r Hr) as Hlen.
  unfold row_set.
  destruct (Z.ltb_spec cx 0) as [Hneg|_]; [lia | ].
  destruct (Z.ltb_spec cx (Z.of_nat (length r))) as [_|Hge];
    [ | rewrite Hlen in Hge; unfold GRID_WIDTH in *; lia].
  unfold rowOk in *. apply andb_true_iff in Hr as [Hl Hcells].
  apply andb_true_iff. split.
  - rewrite length_insert. exact Hl.
  - apply forallb_insert; [exact Hcells | ].
    simpl. destruct (String.eqb_spec color EmptyString); [contradiction | reflexivity].
Qed.

Lemma boardOk_insert (g : board) (i : nat) (r : row) :
  boardOk g = true -> rowOk r = true -> boardOk (<[i := r]> g) = true.
Proof.
  unfold boardOk. intros Hg Hr. apply andb_true_iff in Hg as [Hl Hrows].
  apply andb_true_iff. split.
  - rewrite length_insert. exact Hl.
  - apply forallb_insert; assumption.
Qed.

Lemma countFull_insert (g : board) (i : nat) (r : row) :
  (countFull (<[i := r]> g) <= S (countFull g))%nat.
Proof.
  unfold countFull. revert i. induction g as [|r0 g IH]; intros i; simpl; [lia | ].
  destruct i as [|i]; simpl.
  - destruct (rowFull r), (rowFull r0); simpl; lia.
  - specialize (IH i). destruct (rowFull r0); simpl; lia.
Qed.

(** Copying one shape row writes into one board row at most. *)
Lemma lockPiece_cols_ok (g : board) (color : string) (px y col : Z) (cells : list Z) :
  boardOk g = true -> color <> EmptyString ->
  (forall c, In c (occupiedCols col cells) ->
             0 <= px + c < GRID_WIDTH /\ y < GRID_HEIGHT) ->
  exists g' : board,
    lockPiece_cols g color px y col cells = Ok g' /\
    boardOk g' = true /\
    (g' = g \/ exists r', g' = <[Z.to_nat y := r']> g).
Proof.
  intros Hg Hcolor. revert g col Hg.
  induction cells as [|v rest IH]; intros g col Hg Hin; simpl.
  - exists g. split; [reflexivity | split; [exact Hg | left; reflexivity]].
  - simpl in Hin. destruct (truthy v).
    + destruct (Hin col (or_introl eq_refl)) as [Hx Hy].
      assert (Hrest : forall c, In c (occupiedCols (col + 1) rest) ->
                                0 <= px + c < GRID_WIDTH /\ y < GRID_HEIGHT).
      { intros c Hc. apply Hin. right. exact Hc. }
      destruct (Z.geb_spec y 0) as [Hy0|Hy0]; [ | apply IH; assumption].
      destruct (g !! Z.to_nat y) as [r|] eqn:Hr.
      * pose proof (row_set_ok r (px + col) color (boardOk_lookup g _ r Hg Hr) Hx Hcolor)
          as Hrow.
        destruct (IH (<[Z.to_nat y := row_set r (px + col) (Tag color)]> g) (col + 1)
                    (boardOk_insert g _ _ Hg Hrow) Hrest) as (g' & Hrun & Hok & Hshape).
        exists g'. split; [exact Hrun | split; [exact Hok | right]].
        destruct Hshape as [-> | (r' & ->)].
        -- eexists. reflexivity.
        -- exists r'. apply list_insert_insert_eq.
      * apply lookup_ge_None in Hr. apply boardOk_length in Hg.
        unfold GRID_HEIGHT in *. lia.
    + apply IH; assumption.
Qed.

Lemma lockPiece_rows_ok (g : board) (color : string) (px py rw : Z) (rows : shape) :
  boardOk g = true -> color <> EmptyString ->
  (forall rc, In rc (occupiedFrom rw rows) ->
              0 <= px + snd rc < GRID_WIDTH /\ py + fst rc < GRID_HEIGHT) ->
  exists g' : board,
    lockPiece_rows g color px py rw rows = Ok g' /\
    boardOk g' = true /\
    (countFull g' <= countFull g + length rows)%nat.
Proof.
  intros Hg Hcolor. revert g rw Hg.
  induction rows as [|cells rest IH]; intros g rw Hg Hin; simpl.
  - exists g. split; [reflexivity | split; [exact Hg | lia]].
  - simpl in Hin.
    destruct (lockPiece_cols_ok g color px (py + rw) 0 cells Hg Hcolor)
      as (g1 & Hrun1 & Hok1 & Hshape1).
    { intros c Hc. apply (Hin (rw, c)). apply in_app_iff. left.
      apply in_map_iff. exists c. split; [reflexivity | exact Hc]. }
    destruct (IH g1 (rw + 1) Hok1) as (g' & Hrun & Hok & Hcount).
    { intros rc Hrc. apply Hin. apply in_app_iff. right. exact Hrc. }
    exists g'. rewrite Hrun1. simpl.
    split; [exact Hrun | split; [exact Hok | ]].
    assert (countFull g1 <= S (countFull g))%nat.
    { destruct Hshape1 as [-> | (r' & ->)]; [lia | apply countFull_insert]. }
    lia.
Qed.

Lemma cellAt_write (g : board) (r : row) (x y : Z) (v : cell) (cx cy : Z) :
  boardOk g = true -> 0 <= y -> 0 <= x < GRID_WIDTH ->
  g !! Z.to_nat y = Some r ->
  cellAt (<[Z.to_nat y := row_set r x v]> g) cx cy
  = if (cx =? x) && (cy =? y) then Some v else cellAt g cx cy.
Proof.
  intros Hg Hy Hx Hr.
  pose proof (rowOk_length r (boardOk_lookup g _ r Hg Hr)) as Hlen.
  pose proof (lookup_lt_Some _ _ _ Hr) as Hlt.
  assert (Hset : row_set r x v = <[Z.to_nat x := v]> r).
  { unfold row_set. destruct (Z.ltb_spec x 0) as [Hc|_]; [lia | ].
    destruct (Z.ltb_spec x (Z.of_nat (length r))) as [_|Hc]; [reflexivity | ].
    rewrite Hlen in Hc. unfold GRID_WIDTH in *. lia. }
  rewrite Hset. unfold cellAt.
  destruct (Z.ltb_spec cx 0) as [Hcx|Hcx]; cbn [orb].
  - destruct (Z.eqb_spec cx x) as [Heq|_]; [lia | reflexivity].
  - destruct (Z.ltb_spec cy 0) as [Hcy|Hcy].
    + destruct (Z.eqb_spec cy y) as [Heq|_]; [lia | ].
      rewrite andb_false_r. reflexivity.
    + destruct (Z.eqb_spec cy y) as [->|Hne].
      * rewrite list_lookup_insert_eq by exact Hlt. rewrite Hr.
        destruct (Z.eqb_spec cx x) as [->|Hne]; cbn [andb].
        -- apply list_lookup_insert_eq. rewrite Hlen. unfold GRID_WIDTH in *. lia.
        -- apply list_lookup_insert_ne. lia.
      * rewrite andb_false_r. rewrite list_lookup_insert_ne by lia. reflexivity.
Qed.

Lemma existsb_and_const {A : Type} (f : A -> bool) (b : bool) (l : list A) :
  existsb (fun a => f a && b) l = existsb f l && b.
Proof.
  induction l as [|a l IH]; simpl; [reflexivity | ].
  rewrite IH. destruct (f a), b, (existsb f l); reflexivity.
Qed.

(** The board after one shape row was copied: the cells under the occupied
    cells of the row hold the color, provided the row is not above the
    board; all other cells are as before. *)
Lemma lockPiece_cols_cells (g g' : board) (color : string) (px y col : Z)
    (cells : list Z) :
  boardOk g = true -> color <> EmptyString ->
  (forall c, In c (occupiedCols col cells) ->
             0 <= px + c < GRID_WIDTH /\ y < GRID_HEIGHT) ->
  lockPiece_cols g color px y col cells = Ok g' ->
  forall cx cy : Z,
    cellAt g' cx cy
    = if (0 <=? cy) && (cy =? y)
         && existsb (fun c => px + c =? cx) (occupiedCols col cells)
      then Some (Tag color) else cellAt g cx cy.
Proof.
  intros Hg Hcolor. revert g col Hg.
  induction cells as [|v rest IH]; intros g col Hg Hin Hrun cx cy; simpl in Hrun.
  - injection Hrun as <-. simpl. rewrite andb_false_r. reflexivity.
  - simpl in Hin. simpl. destruct (truthy v).
    + destruct (Hin col (or_introl eq_refl)) as [Hx Hy].
      assert (Hrest : forall c, In c (occupiedCols (col + 1) rest) ->
                                0 <= px + c < GRID_WIDTH /\ y < GRID_HEIGHT).
      { intros c Hc. apply Hin. right. exact Hc. }
      cbn [existsb].
      destruct (Z.geb_spec y 0) as [Hy0|Hy0].
      * destruct (g !! Z.to_nat y) as [r|] eqn:Hr; [ | discriminate].
        pose proof (row_set_ok r (px + col) color (boardOk_lookup g _ r Hg Hr) Hx Hcolor)
          as Hrow.
        rewrite (IH _ _ (boardOk_insert g _ _ Hg Hrow) Hrest Hrun cx cy).
        rewrite (cellAt_write g r (px + col) y (Tag color) cx cy Hg) by (lia || assumption).
        destruct (Z.leb_spec 0 cy), (Z.eqb_spec cy y), (Z.eqb_spec (px + col) cx),
          (Z.eqb_spec cx (px + col)),
          (existsb (fun c => px + c =? cx) (occupiedCols (col + 1) rest));
          cbn [andb orb]; try reflexivity; lia.
      * rewrite (IH _ _ Hg Hrest Hrun cx cy).
        destruct (Z.leb_spec 0 cy), (Z.eqb_spec cy y); cbn [andb]; try reflexivity; lia.
    + apply IH; assumption.
Qed.

Lemma lockPiece_rows_cells (g g' : board) (color : string) (px py rw : Z)
    (rows : shape) :
  boardOk g = true -> color <> EmptyString ->
  (forall rc, In rc (occupiedFrom rw rows) ->
              0 <= px + snd rc < GRID_WIDTH /\ py + fst rc < GRID_HEIGHT) ->
  lockPiece_rows g color px py rw rows = Ok g' ->
  forall cx cy : Z,
    cellAt g' cx cy
    = if existsb (fun rc => (px + snd rc =? cx) && (py + fst rc =? cy))
           (occupiedFrom rw rows) && (0 <=? cy)
      then Some (Tag color) else cellAt g cx cy.
Proof.
  intros Hg Hcolor. revert g rw Hg.
  induction rows as [|cells rest IH]; intros g rw Hg Hin Hrun cx cy; simpl in Hrun.
  - injection Hrun as <-. reflexivity.
  - simpl in Hin.
    assert (Hcols : forall c, In c (occupiedCols 0 cells) ->
                              0 <= px + c < GRID_WIDTH /\ py + rw < GRID_HEIGHT).
    { intros c Hc. apply (Hin (rw, c)). apply in_app_iff. left.
      apply in_map_iff. exists c. split; [reflexivity | exact Hc]. }
    destruct (lockPiece_cols_ok g color px (py + rw) 0 cells Hg Hcolor Hcols)
      as (g1 & Hrun1 & Hok1 & _).
    rewrite Hrun1 in Hrun. cbn [bind] in Hrun.
    assert (Hrest : forall rc, In rc (occupiedFrom (rw + 1) rest) ->
              0 <= px + snd rc < GRID_WIDTH /\ py + fst rc < GRID_HEIGHT).
    { intros rc Hrc. apply Hin. apply in_app_iff. right. exact Hrc. }
    rewrite (IH g1 (rw + 1) Hok1 Hrest Hrun cx cy).
    rewrite (lockPiece_cols_cells g g1 color px (py + rw) 0 cells Hg Hcolor Hcols Hrun1).
    cbn [occupiedFrom]. rewrite existsb_app, existsb_map_comp. cbn [fst snd].
    rewrite (existsb_and_const (fun c => px + c =? cx) (py + rw =? cy)).
    destruct (Z.leb_spec 0 cy), (Z.eqb_spec cy (py + rw)), (Z.eqb_spec (py + rw) cy),
      (existsb (fun c => px + c =? cx) (occupiedCols 0 cells)),
      (existsb (fun rc => (px + snd rc =? cx) && (py + fst rc =? cy))
         (occupiedFrom (rw + 1) rest));
      cbn [andb orb]; try reflexivity; lia.
Qed.

Lemma inBounds_spec (x y : Z) (sh : shape) :
  inBounds x y sh = true <->
  forall rc, In rc (occupied sh) ->
             0 <= x + snd rc < GRID_WIDTH /\ y + fst rc < GRID_HEIGHT.
Proof.
  unfold inBounds. rewrite forallb_forall.
  split; intros H rc Hrc; specialize (H rc Hrc).
  - apply andb_true_iff in H as [H Hy]. apply andb_true_iff in H as [Hx0 Hxw].
    lia.
  - apply andb_true_iff. split; [apply andb_true_iff; split | ]; lia.
Qed.

Lemma lockCells_ok (g : board) (p : piece) :
  boardOk g = true -> pieceOk p ->
  exists g' : board,
    lockCells g p = Ok g' /\ boardOk g' = true /\
    (countFull g' <= countFull g + length (piece_shape p))%nat.
Proof.
  intros Hg (_ & Hin & Hcolor). unfold lockCells.
  apply lockPiece_rows_ok; [exact Hg | exact Hcolor | ].
  apply inBounds_spec, Hin.
Qed.

(** The board [lockPiece] copies the piece into: the cells the piece covers
    on rows [>= 0] hold its color, all other cells are as before. *)
Lemma lockCells_cells (g g' : board) (p : piece) :
  boardOk g = true -> pieceOk p -> lockCells g p = Ok g' ->
  forall cx cy : Z,
    cellAt g' cx cy
    = if covers p cx cy && (0 <=? cy) then Some (Tag (piece_color p))
      else cellAt g cx cy.
Proof.
  intros Hg (_ & Hin & Hcolor) Hrun. unfold lockCells in Hrun.
  apply (lockPiece_rows_cells g g' _ _ _ 0 _ Hg Hcolor); [ | exact Hrun].
  apply inBounds_spec, Hin.
Qed.

Lemma noFullRow_countFull (g : board) : noFullRow g = true <-> countFull g = 0%nat.
Proof.
  unfold noFullRow, countFull. induction g as [|r g IH]; simpl; [tauto | ].
  destruct (rowFull r); simpl.
  - split; [discriminate | lia].
  - exact IH.
Qed.

Lemma orientation_height (sh : shape) :
  In sh allOrientations -> (length sh <= 4)%nat /\ occupied sh <> [].
Proof.
  intros H. cbv [allOrientations shapeKeys flat_map orientations app] in H.
  repeat (destruct H as [<- | H]; [vm_compute; split; [lia | discriminate] | ]).
  destruct H.
Qed.

Lemma keepRows_length (g : board) :
  (countFull g + length (keepRows g) = length g)%nat.
Proof. unfold countFull, keepRows. apply List.filter_length. Qed.

Lemma compacted_ok (g : board) :
  boardOk g = true ->
  boardOk (compacted g) = true /\ noFullRow (compacted g) = true.
Proof.
  unfold boardOk, noFullRow, compacted. intros H.
  apply andb_true_iff in H as [Hlen Hrows]. apply Nat.eqb_eq in Hlen.
  assert (Hfresh : forall n,
             forallb rowOk (replicate n emptyRow) = true /\
             forallb (fun r => negb (rowFull r)) (replicate n emptyRow) = true).
  { induction n as [|n [IH1 IH2]]; simpl; [split; reflexivity | ].
    rewrite IH1, IH2. split; reflexivity. }
  assert (Hkeep : forallb rowOk (keepRows g) = true /\
                  forallb (fun r => negb (rowFull r)) (keepRows g) = true).
  { clear Hlen. unfold keepRows. induction g as [|r g IH]; simpl; [split; reflexivity | ].
    simpl in Hrows. apply andb_true_iff in Hrows as [Hr Hrows].
    destruct (IH Hrows) as [IH1 IH2].
    destruct (rowFull r) eqn:Hfull; simpl; [split; assumption | ].
    rewrite Hr, Hfull, IH1, IH2. split; reflexivity. }
  destruct (Hfresh (countFull g)) as [Hf1 Hf2]. destruct Hkeep as [Hk1 Hk2].
  rewrite !forallb_app, Hf1, Hf2, Hk1, Hk2, length_app, length_replicate.
  rewrite keepRows_length, Hlen. split; reflexivity.
Qed.

Lemma compacted_noFullRow (g : board) : noFullRow (compacted g) = true.
Proof.
  unfold noFullRow, compacted. rewrite forallb_app.
  apply andb_true_iff. split.
  - induction (countFull g) as [|n IH]; simpl; [reflexivity | exact IH].
  - unfold keepRows. induction g as [|r g IH]; simpl; [reflexivity | ].
    destruct (rowFull r) eqn:Hfull; simpl; [exact IH | ].
    rewrite Hfull, IH. reflexivity.
Qed.

(** ** Facts about the treasure code *)

Lemma set_draws_twice (a b : nat) (s : state) :
  set_draws a (set_draws b s) = set_draws a s.
Proof. destruct s. reflexivity. Qed.

Lemma generateTreasureCode_loop_state (k : nat) (code : string) (s : state) :
  snd (generateTreasureCode_loop k code s) = set_draws (k + draws s) s.
Proof.
  revert code s. induction k as [|k IH]; intros code s; simpl.
  - destruct s. reflexivity.
  - rewrite IH, set_draws_twice. simpl. f_equal. lia.
Qed.





Lemma unlockTreasure_eq (s : state) :
  unlockTreasure s
  = set_treasureCardHidden false
      (set_treasureCode (fst (generateTreasureCode (set_treasureUnlocked true s)))
         (set_draws (8 + draws s) (set_treasureUnlocked true s))).
Proof.
  unfold unlockTreasure.
  pose proof (generateTreasureCode_loop_state 8 EmptyString (set_treasureUnlocked true s))
    as Hst.
  unfold generateTreasureCode.
  destruct (generateTreasureCode_loop 8 EmptyString (set_treasureUnlocked true s))
    as [code s2].
  simpl in Hst. rewrite Hst. destruct s. reflexivity.
Qed.


(** ** Facts about scoring *)

Lemma basePoints_table (n : nat) :
  (1 <= n <= 4)%nat -> basePoints !! n = Some (tablePoints n) /\ 0 < tablePoints n.
Proof.
  intros Hn. destruct n as [|[|[|[|[|n]]]]]; try lia; simpl;
    (split; [reflexivity | lia]).
Qed.

Lemma linePoints_table (n : nat) (lvl : num) :
  (1 <= n <= 4)%nat -> linePoints n lvl = mul (Int (tablePoints n)) lvl.
Proof.
  intros Hn. unfold linePoints. destruct (basePoints_table n Hn) as [-> _].
  reflexivity.
Qed.

Lemma unlockTreasure_fields (s : state) :
  grid (unlockTreasure s) = grid s /\
  currentPiece (unlockTreasure s) = currentPiece s /\
  score (unlockTreasure s) = score s /\
  energy (unlockTreasure s) = energy s /\
  level (unlockTreasure s) = level s /\
  dropInterval (unlockTreasure s) = dropInterval s.
Proof. rewrite unlockTreasure_eq. repeat split; reflexivity. Qed.

(** The counters [awardLines] leaves when at least one row was removed. *)
Lemma awardLines_fields (n : nat) (s : state) :
  (0 < n)%nat ->
  let points := linePoints n (level s) in
  let score' := add (score s) points in
  let level' := add (floor_div score' 1000) (Int 1) in
  grid (awardLines n s) = grid s /\
  currentPiece (awardLines n s) = currentPiece s /\
  score (awardLines n s) = score' /\
  energy (awardLines n s) = add (energy s) points /\
  level (awardLines n s) = level' /\
  dropInterval (awardLines n s)
  = max (Int 100) (sub (Int 1000) (mul (sub level' (Int 1)) (Int 100))).
Proof.
  intros Hn. cbv zeta. unfold awardLines.
  destruct (Nat.ltb_spec 0 n) as [_|Hc]; [ | lia]. cbv zeta.
  case_if; [ | repeat split; reflexivity].
  match goal with
  | |- context [unlockTreasure ?t] =>
      destruct (unlockTreasure_fields t) as (-> & -> & -> & -> & -> & ->)
  end.
  repeat split; reflexivity.
Qed.

Lemma awardLines_grid (n : nat) (s : state) : grid (awardLines n s) = grid s.
Proof.
  destruct n as [|n]; [reflexivity | ].
  apply (awardLines_fields (S n) s). lia.
Qed.

Lemma counterOk_num_le (lo : Z) (a : num) : counterOk lo a -> num_le a a.
Proof. destruct a; simpl; intros H; [contradiction | lia | exact I | contradiction]. Qed.

Lemma add_one_counter (a : num) : counterOk 0 a -> counterOk 1 (add a (Int 1)).
Proof.
  destruct a as [|x| |]; simpl; intros Hx; try contradiction; [ | exact I].
  destruct (isDouble x); [ | cbn; lia].
  change (isDouble 1) with true. cbn [andb]. unfold roundDouble.
  destruct (Z.ltb_spec (x + 1) 0) as [Hc|_]; [lia | ].
  pose proof (roundNonneg_above 1 (x + 1) eq_refl ltac:(lia)) as Habove.
  destruct (roundNonneg (x + 1)); simpl; [exact Habove | exact I].
Qed.

(** With at most four rows cleared the counters stay counters and do not go
    down; the board and the piece are not touched. *)
Lemma awardLines_ok (n : nat) (s : state) :
  (n <= 4)%nat ->
  counterOk 0 (score s) -> counterOk 0 (energy s) -> counterOk 1 (level s) ->
  grid (awardLines n s) = grid s /\
  currentPiece (awardLines n s) = currentPiece s /\
  counterOk 0 (score (awardLines n s)) /\
  counterOk 0 (energy (awardLines n s)) /\
  counterOk 1 (level (awardLines n s)) /\
  num_le (score s) (score (awardLines n s)) /\
  num_le (energy s) (energy (awardLines n s)).
Proof.
  intros Hn Hz He Hl.
  destruct n as [|n].
  - change (awardLines 0 s) with s.
    split; [reflexivity | split; [reflexivity | ]].
    split; [exact Hz | split; [exact He | split; [exact Hl | ]]].
    split; [apply (counterOk_num_le 0), Hz | apply (counterOk_num_le 0), He].
  - destruct (awardLines_fields (S n) s ltac:(lia))
      as (-> & -> & -> & -> & -> & _).
    rewrite linePoints_table by lia.
    destruct (basePoints_table (S n)) as [_ Hb]; [lia | ].
    pose proof (mul_counter (tablePoints (S n)) (level s) Hb Hl) as Hpts.
    destruct (add_counter 0 (score s) _ (Z.le_refl 0) Hz Hpts) as [Hz' Hzle].
    destruct (add_counter 0 (energy s) _ (Z.le_refl 0) He Hpts) as [He' Hele].
    split; [reflexivity | split; [reflexivity | ]].
    split; [exact Hz' | split; [exact He' | split; [ | split; assumption]]].
    apply add_one_counter, floor_div_counter; [lia | exact Hz'].
Qed.

(** ** Facts about spawning *)

Lemma spawn_pieceOk (k : shapeKey) :
  pieceOk {| piece_shape := SHAPES k; piece_color := COLORS k;
             piece_x := GRID_WIDTH / 2 - 1; piece_y := 0 |}.
Proof.
  split; [ | split].
  - cbn [piece_shape]. unfold allOrientations. apply in_flat_map. exists k. split.
    + destruct k; simpl; tauto.
    + left. reflexivity.
  - destruct k; reflexivity.
  - destruct k; discriminate.
Qed.

(** [spawnPiece] always returns on a board of full height; it sets a catalog
    piece at its start position and leaves the board and the counters. *)
Lemma spawnPiece_ok (s : state) :
  length (grid s) = Z.to_nat GRID_HEIGHT ->
  exists (s' : state) (k : shapeKey),
    spawnPiece s = Ok s' /\
    currentPiece s' = Some {| piece_shape := SHAPES k; piece_color := COLORS k;
                              piece_x := GRID_WIDTH / 2 - 1; piece_y := 0 |} /\
    grid s' = grid s /\ score s' = score s /\ energy s' = energy s /\
    level s' = level s /\ dropInterval s' = dropInterval s /\
    treasureUnlocked s' = treasureUnlocked s /\ treasureCode s' = treasureCode s.
Proof.
  intros Hlen. unfold spawnPiece, randomIndex.
  destruct (shapeKeys !! (entropy s (draws s) mod length shapeKeys)%nat) as [k|] eqn:Hk.
  - rewrite checkCollision_collides by exact Hlen.
    cbn [bind].
    case_if.
    + eexists; exists k. split; [reflexivity | ].
      unfold gameOver. destruct s as [? ? [|] ? ? ? ? ? ? ? ? ? ? ? ?];
        repeat split; reflexivity.
    + eexists; exists k. split; [reflexivity | ].
      destruct s; repeat split; reflexivity.
  - apply lookup_ge_None in Hk.
    pose proof (Nat.mod_upper_bound (entropy s (draws s)) (length shapeKeys)) as Hlt.
    simpl in *. lia.
Qed.

(** ** The engine keeps to the states of a session *)

Lemma num_le_trans (a b c : num) : num_le a b -> num_le b c -> num_le a c.
Proof. destruct a, b, c; simpl; try tauto. lia. Qed.

Lemma stateOk_sessionOk (s : state) : stateOk s -> sessionOk s.
Proof.
  intros (Hg & Hnf & Hp & (z & Hz & Hz0) & (e & He & He0) & (l & Hl & Hl0)).
  unfold sessionOk. rewrite Hz, He, Hl. simpl. tauto.
Qed.

Lemma sessionOk_same (s s' : state) :
  grid s' = grid s -> currentPiece s' = currentPiece s ->
  score s' = score s -> energy s' = energy s -> level s' = level s ->
  sessionOk s -> sessionOk s'.
Proof. unfold sessionOk. intros -> -> -> -> -> H. exact H. Qed.

Lemma collides_false_inBounds (g : board) (x y : Z) (sh : shape) :
  collides g x y sh = false -> inBounds x y sh = true.
Proof.
  unfold collides, inBounds.
  induction (occupied sh) as [|rc l IH]; simpl; [reflexivity | ].
  intros H. apply orb_false_iff in H as [Hhit Hrest].
  rewrite (IH Hrest), andb_true_r.
  unfold hitAt in Hhit.
  apply orb_false_iff in Hhit as [Hhit _].
  apply orb_false_iff in Hhit as [Hhit Hy].
  apply orb_false_iff in Hhit as [Hx0 Hxw].
  apply andb_true_iff. split; [apply andb_true_iff; split | ]; lia.
Qed.

Lemma clearLines_ok (s : state) :
  boardOk (grid s) = true -> (countFull (grid s) <= 4)%nat ->
  counterOk 0 (score s) -> counterOk 0 (energy s) -> counterOk 1 (level s) ->
  exists s' : state,
    clearLines s = Ok s' /\
    boardOk (grid s') = true /\ noFullRow (grid s') = true /\
    currentPiece s' = currentPiece s /\
    counterOk 0 (score s') /\ counterOk 0 (energy s') /\ counterOk 1 (level s') /\
    num_le (score s) (score s') /\ num_le (energy s) (energy s').
Proof.
  intros Hg Hn Hz He Hl.
  rewrite (clearLines_eq s (boardOk_length _ Hg)).
  eexists. split; [reflexivity | ].
  destruct (compacted_ok (grid s) Hg) as [Hok Hnofull].
  destruct (awardLines_ok (countFull (grid s)) (set_grid (compacted (grid s)) s)
              Hn Hz He Hl) as (-> & -> & Hrest).
  split; [exact Hok | split; [exact Hnofull | split; [reflexivity | exact Hrest]]].
Qed.

Lemma lockPiece_ok (s : state) :
  sessionOk s ->
  exists s' : state,
    lockPiece s = Ok s' /\ sessionOk s' /\
    num_le (score s) (score s') /\ num_le (energy s) (energy s').
Proof.
  intros Hs. pose proof Hs as (Hg & Hnf & Hp & Hz & He & Hl).
  unfold lockPiece. destruct (currentPiece s) as [p|] eqn:Hcur.
  - destruct (lockCells_ok (grid s) p Hg (Hp p eq_refl)) as (g' & Hlock & Hg' & Hcount).
    rewrite Hlock. cbn [bind].
    apply noFullRow_countFull in Hnf.
    destruct (orientation_height (piece_shape p)) as [Hh _];
      [apply (Hp p eq_refl) | ].
    destruct (clearLines_ok (set_grid g' s)) as
      (s1 & Hclear & Hg1 & Hnf1 & Hcur1 & Hz1 & He1 & Hl1 & Hzle & Hele);
      try assumption; [simpl; lia | ].
    rewrite Hclear. cbn [bind].
    destruct (spawnPiece_ok s1 (boardOk_length _ Hg1))
      as (s2 & k & Hspawn & Hcur2 & Hg2 & Hz2 & He2 & Hl2 & _).
    exists s2. split; [exact Hspawn | ].
    split.
    + unfold sessionOk. rewrite Hg2, Hz2, He2, Hl2.
      split; [exact Hg1 | split; [exact Hnf1 | split; [ | tauto]]].
      intros p' Hp'. rewrite Hcur2 in Hp'. injection Hp' as <-. apply spawn_pieceOk.
    + rewrite Hz2, He2. split; assumption.
  - exists s. split; [reflexivity | split; [exact Hs | ]].
    split; [apply (counterOk_num_le 0), Hz | apply (counterOk_num_le 0), He].
Qed.

(** Locking in a state of a session: the piece is copied into the board, the
    full rows are cleared, and a catalog piece is spawned. *)
Lemma lockPiece_board (s : state) (p : piece) :
  sessionOk s -> currentPiece s = Some p ->
  exists (g' : board) (s' : state) (k : shapeKey),
    lockCells (grid s) p = Ok g' /\ lockPiece s = Ok s' /\
    grid s' = compacted g' /\
    currentPiece s' = Some {| piece_shape := SHAPES k; piece_color := COLORS k;
                              piece_x := GRID_WIDTH / 2 - 1; piece_y := 0 |}.
Proof.
  intros (Hg & _ & Hp & _) Hcur.
  destruct (lockCells_ok (grid s) p Hg (Hp p Hcur)) as (g' & Hlock & Hg' & _).
  unfold lockPiece. rewrite Hcur, Hlock. cbn [bind].
  rewrite (clearLines_eq (set_grid g' s) (boardOk_length _ Hg')). cbn [bind].
  destruct (spawnPiece_ok (awardLines (countFull g') (set_grid (compacted g') (set_grid g' s))))
    as (s' & k & Hspawn & Hcur' & Hgrid & _).
  { rewrite awardLines_grid. apply boardOk_length, compacted_ok, Hg'. }
  exists g', s', k.
  split; [reflexivity | split; [exact Hspawn | split; [ | exact Hcur']]].
  rewrite Hgrid, awardLines_grid. reflexivity.
Qed.

Lemma movePiece_commit_ok (dx dy : Z) (p : piece) (s : state) :
  sessionOk s -> currentPiece s = Some p ->
  collides (grid s) (piece_x p + dx) (piece_y p + dy) (piece_shape p) = false ->
  sessionOk (movePiece_commit (piece_x p + dx) (piece_y p + dy) dy p s) /\
  num_le (score s) (score (movePiece_commit (piece_x p + dx) (piece_y p + dy) dy p s)) /\
  num_le (energy s) (energy (movePiece_commit (piece_x p + dx) (piece_y p + dy) dy p s)).
Proof.
  intros (Hg & Hnf & Hp & Hz & He & Hl) Hcur Hfree.
  destruct (Hp p Hcur) as (Hsh & _ & Hcolor).
  assert (Hpiece : pieceOk {| piece_shape := piece_shape p; piece_color := piece_color p;
                              piece_x := piece_x p + dx; piece_y := piece_y p + dy |}).
  { split; [exact Hsh | split; [ | exact Hcolor]].
    apply (collides_false_inBounds (grid s)), Hfree. }
  destruct (add_counter 0 (score s) (Int 1) (Z.le_refl 0) Hz ltac:(simpl; lia))
    as [Hz' Hzle].
  destruct (add_counter 0 (energy s) (Int 1) (Z.le_refl 0) He ltac:(simpl; lia))
    as [He' Hele].
  unfold movePiece_commit. destruct (dy >? 0).
  - split; [ | split; assumption].
    unfold sessionOk. cbn.
    split; [exact Hg | split; [exact Hnf | split; [ | tauto]]].
    intros p' Hp'. injection Hp' as <-. exact Hpiece.
  - split; [ | split; [apply (counterOk_num_le 0), Hz | apply (counterOk_num_le 0), He]].
    unfold sessionOk. cbn.
    split; [exact Hg | split; [exact Hnf | split; [ | tauto]]].
    intros p' Hp'. injection Hp' as <-. exact Hpiece.
Qed.

(** What [movePiece] does on a board of full height, by cases on the
    collision at the new position. *)
Lemma movePiece_eq (dx dy : Z) (s : state) (p : piece) :
  length (grid s) = Z.to_nat GRID_HEIGHT -> currentPiece s = Some p ->
  movePiece dx dy s =
  if collides (grid s) (piece_x p + dx) (piece_y p + dy) (piece_shape p)
  then do s1 <- (if dy >? 0 then lockPiece s else Ok s); Ok (Bool false, s1)
  else Ok (Bool true, movePiece_commit (piece_x p + dx) (piece_y p + dy) dy p s).
Proof.
  intros Hlen Hcur. unfold movePiece. rewrite Hcur.
  cbv zeta. rewrite (checkCollision_collides _ _ _ _ Hlen). cbn [bind].
  destruct (collides _ _ _ _); reflexivity.
Qed.

Lemma movePiece_ok (dx dy : Z) (s : state) :
  sessionOk s ->
  exists (r : ret) (s' : state),
    movePiece dx dy s = Ok (r, s') /\ sessionOk s' /\
    num_le (score s) (score s') /\ num_le (energy s) (energy s').
Proof.
  intros Hs. pose proof Hs as (Hg & _ & _ & Hz & He & _).
  destruct (currentPiece s) as [p|] eqn:Hcur.
  - rewrite (movePiece_eq dx dy s p (boardOk_length _ Hg) Hcur).
    destruct (collides _ _ _ _) eqn:Hhit.
    + destruct (dy >? 0).
      * destruct (lockPiece_ok s Hs) as (s' & Hlock & Hok & Hle).
        rewrite Hlock. exists (Bool false), s'. split; [reflexivity | split; assumption].
      * exists (Bool false), s. split; [reflexivity | split; [exact Hs | ]].
        split; [apply (counterOk_num_le 0), Hz | apply (counterOk_num_le 0), He].
    + eexists; eexists. split; [reflexivity | ].
      apply movePiece_commit_ok; assumption.
  - unfold movePiece. rewrite Hcur. exists Undefined, s.
    split; [reflexivity | split; [exact Hs | ]].
    split; [apply (counterOk_num_le 0), Hz | apply (counterOk_num_le 0), He].
Qed.

Lemma rotate_orientation (sh : shape) :
  In sh allOrientations ->
  exists sh' : shape, rotate sh = Ok sh' /\ In sh' allOrientations.
Proof.
  intros H. cbv [allOrientations shapeKeys flat_map orientations app] in H.
  repeat (destruct H as [<- | H];
          [eexists; split; [reflexivity | ];
           vm_compute; repeat first [left; reflexivity | right] | ]).
  destruct H.
Qed.

Lemma rotatePiece_ok (s : state) :
  sessionOk s ->
  exists s' : state,
    rotatePiece s = Ok (Undefined, s') /\ sessionOk s' /\
    grid s' = grid s /\ score s' = score s /\ energy s' = energy s.
Proof.
  intros Hs. pose proof Hs as (Hg & Hnf & Hp & Hz & He & Hl).
  unfold rotatePiece. destruct (currentPiece s) as [p|] eqn:Hcur.
  - destruct (Hp p eq_refl) as (Hsh & Hin & Hcolor).
    destruct (rotate_orientation _ Hsh) as (sh' & Hrot & Hsh').
    rewrite Hrot. cbn [bind].
    rewrite (checkCollision_collides _ _ _ _ (boardOk_length _ Hg)). cbn [bind].
    destruct (collides _ _ _ _) eqn:Hhit; cbn [negb].
    + exists s. split; [reflexivity | split; [exact Hs | repeat split]].
    + eexists. split; [reflexivity | ].
      split; [ | repeat split; reflexivity].
      unfold sessionOk. simpl.
      split; [exact Hg | split; [exact Hnf | split; [ | split; [exact Hz | split; assumption]]]].
      intros p' Hp'. injection Hp' as <-.
      split; [exact Hsh' | split; [ | exact Hcolor]].
      apply (collides_false_inBounds (grid s)), Hhit.
  - exists s. split; [reflexivity | split; [exact Hs | repeat split]].
Qed.

(** ** Facts about the hard drop *)

Lemma pieceOk_above_floor (p : piece) : pieceOk p -> piece_y p < GRID_HEIGHT.
Proof.
  intros (Hsh & Hin & _).
  destruct (orientation_height _ Hsh) as [_ Hocc].
  destruct (occupied (piece_shape p)) as [|[r c] l] eqn:Hl; [contradiction | ].
  assert (Hrc : In (r, c) (occupied (piece_shape p))) by (rewrite Hl; left; reflexivity).
  destruct (proj1 (inBounds_spec _ _ _) Hin (r, c) Hrc) as [_ Hy].
  apply occupied_spec in Hrc as (i & j & cells & v & -> & _).
  simpl in Hy. lia.
Qed.

Lemma movePiece_commit_fields (newX newY : Z) (p : piece) (s : state) :
  currentPiece (movePiece_commit newX newY 1 p s)
  = Some {| piece_shape := piece_shape p; piece_color := piece_color p;
            piece_x := newX; piece_y := newY |} /\
  score (movePiece_commit newX newY 1 p s) = add (score s) (Int 1) /\
  energy (movePiece_commit newX newY 1 p s) = add (energy s) (Int 1).
Proof. repeat split; reflexivity. Qed.

Lemma addOnes_succ (n : nat) (v : num) :
  addOnes (S n) v = addOnes n (add v (Int 1)).
Proof. unfold addOnes. exact (Nat.iter_succ_r n (fun a => add a (Int 1)) v). Qed.

(** Below [2^53] each [+= 1] is exact. *)
Lemma addOnes_exact (n : nat) (z : Z) :
  0 <= z -> z + Z.of_nat n < 2 ^ 53 -> addOnes n (Int z) = Int (z + Z.of_nat n).
Proof.
  revert z. induction n as [|n IH]; intros z Hz Hn.
  - simpl. f_equal. lia.
  - rewrite addOnes_succ, add_exact by (rewrite ?Z.abs_eq by lia; try reflexivity; lia).
    rewrite IH by lia. f_equal. lia.
Qed.

(** From a state of a session with a piece at most [m] rows above the floor,
    [movePiece (0, 1)] succeeds some [n] times and then fails, and with fuel
    [m] or more the loop of [hardDrop] returns [n] more than it started
    with, in the state the failing call left. *)
Lemma hardDrop_loop_ok (m : nat) (s : state) (p : piece) :
  sessionOk s -> currentPiece s = Some p ->
  (Z.to_nat (GRID_HEIGHT - piece_y p) <= m)%nat ->
  exists (n : nat) (sn s' : state),
    moveDown n s = Ok sn /\
    (forall i : nat, (i < n)%nat ->
       exists si sj : state,
         moveDown i s = Ok si /\ movePiece 0 1 si = Ok (Bool true, sj)) /\
    movePiece 0 1 sn = Ok (Bool false, s') /\
    score sn = addOnes n (score s) /\
    energy sn = addOnes n (energy s) /\
    sessionOk s' /\ num_le (score s) (score s') /\ num_le (energy s) (energy s') /\
    forall fuel d : nat,
      (m <= fuel)%nat -> hardDrop_loop fuel d s = Ok ((d + n)%nat, s').
Proof.
  revert s p. induction m as [|m IH]; intros s p Hs Hcur Hm.
  - destruct Hs as (_ & _ & Hp & _).
    pose proof (pieceOk_above_floor p (Hp p Hcur)). lia.
  - pose proof Hs as (Hg & _ & Hp & _).
    pose proof (pieceOk_above_floor p (Hp p Hcur)) as Hfloor.
    pose proof (movePiece_eq 0 1 s p (boardOk_length _ Hg) Hcur) as Hmove.
    destruct (collides (grid s) (piece_x p + 0) (piece_y p + 1) (piece_shape p)) eqn:Hhit.
    + destruct (lockPiece_ok s Hs) as (s' & Hlock & Hok & Hle1 & Hle2).
      change (1 >? 0) with true in Hmove. cbv iota in Hmove.
      rewrite Hlock in Hmove. cbn [bind] in Hmove.
      exists 0%nat, s, s'.
      split; [reflexivity | split; [intros i Hi; lia | split; [exact Hmove | ]]].
      split; [reflexivity | split; [reflexivity | ]].
      split; [exact Hok | split; [exact Hle1 | split; [exact Hle2 | ]]].
      intros [|fuel] d Hfuel; [lia | ].
      cbn [hardDrop_loop]. rewrite Hmove. cbn [bind fst snd truthy_ret].
      f_equal. f_equal. lia.
    + destruct (movePiece_commit_ok 0 1 p s Hs Hcur Hhit) as (Hs1 & Hle1 & Hle2).
      destruct (movePiece_commit_fields (piece_x p + 0) (piece_y p + 1) p s)
        as (Hcur1 & Hz1 & He1).
      set (s1 := movePiece_commit (piece_x p + 0) (piece_y p + 1) 1 p s) in *.
      destruct (IH s1 _ Hs1 Hcur1) as
        (n & sn & s' & Hdown & Hsteps & Hlast & Hzn & Hen & Hok & Hle3 & Hle4 & Hloop).
      { cbn [piece_y]. lia. }
      exists (S n), sn, s'.
      split; [cbn [moveDown]; rewrite Hmove; exact Hdown | ].
      split.
      { intros [|i] Hi.
        - exists s, s1. split; [reflexivity | exact Hmove].
        - destruct (Hsteps i) as (si & sj & Hsi & Hsj); [lia | ].
          exists si, sj. split; [cbn [moveDown]; rewrite Hmove; exact Hsi | exact Hsj]. }
      split; [exact Hlast | ].
      split; [rewrite Hzn, Hz1, addOnes_succ; reflexivity | ].
      split; [rewrite Hen, He1, addOnes_succ; reflexivity | ].
      split; [exact Hok | ].
      split; [eapply num_le_trans; eassumption | ].
      split; [eapply num_le_trans; eassumption | ].
      intros [|fuel] d Hfuel; [lia | ].
      cbn [hardDrop_loop]. rewrite Hmove. cbn [bind fst snd truthy_ret].
      rewrite Hloop by lia. f_equal. f_equal. lia.
Qed.

Lemma addBonus_ok (d : nat) (s : state) :
  sessionOk s ->
  sessionOk (addBonus d s) /\
  num_le (score s) (score (addBonus d s)) /\
  num_le (energy s) (energy (addBonus d s)).
Proof.
  intros (Hg & Hnf & Hp & Hz & He & Hl).
  assert (Hbonus : counterOk 0 (Int (Z.of_nat d * 2))) by (simpl; lia).
  destruct (add_counter 0 (score s) _ (Z.le_refl 0) Hz Hbonus) as [Hz' Hzle].
  destruct (add_counter 0 (energy s) _ (Z.le_refl 0) He Hbonus) as [He' Hele].
  unfold addBonus, sessionOk. cbn.
  split; [ | split; assumption].
  split; [exact Hg | split; [exact Hnf | split; [exact Hp | tauto]]].
Qed.

Lemma hardDrop_ok (s : state) :
  sessionOk s ->
  exists s' : state,
    (forall fuel : nat, (dropFuel s <= fuel)%nat -> hardDrop fuel s = Ok (Undefined, s')) /\
    sessionOk s' /\ num_le (score s) (score s') /\ num_le (energy s) (energy s').
Proof.
  intros Hs. unfold dropFuel, hardDrop.
  destruct (currentPiece s) as [p|] eqn:Hcur.
  - destruct (hardDrop_loop_ok _ s p Hs Hcur (Nat.le_refl _)) as
      (n & sn & s' & _ & _ & _ & _ & _ & Hok & Hle1 & Hle2 & Hloop).
    destruct (addBonus_ok n s' Hok) as (Hok' & Hle3 & Hle4).
    exists (addBonus n s').
    split; [intros fuel Hfuel; rewrite (Hloop fuel 0%nat Hfuel); reflexivity | ].
    split; [exact Hok' | split; eapply num_le_trans; eassumption].
  - pose proof Hs as (_ & _ & _ & Hz & He & _).
    exists s. split; [reflexivity | split; [exact Hs | ]].
    split; [apply (counterOk_num_le 0), Hz | apply (counterOk_num_le 0), He].
Qed.

(** ** Every state of a session satisfies [sessionOk] *)

Lemma initialState_ok (e : nat -> nat) : stateOk (initialState e).
Proof.
  split; [reflexivity | split; [reflexivity | split]].
  - intros p Hp. discriminate.
  - split; [exists 0; split; [reflexivity | lia] | ].
    split; [exists 0; split; [reflexivity | lia] | exists 1; split; [reflexivity | lia]].
Qed.

Lemma resetGame_ok (s : state) : sessionOk (resetGame s).
Proof.
  split; [reflexivity | split; [reflexivity | split]].
  - intros p Hp. discriminate.
  - cbn. repeat split; lia.
Qed.

Lemma spawnedState_ok (k : shapeKey) : stateOk (spawnedState k).
Proof.
  split; [reflexivity | split; [reflexivity | split]].
  - intros p Hp. injection Hp as <-. apply spawn_pieceOk.
  - split; [exists 0; split; [reflexivity | lia] | ].
    split; [exists 0; split; [reflexivity | lia] | exists 1; split; [reflexivity | lia]].
Qed.

Lemma spawnPiece_sessionOk (s : state) :
  sessionOk s -> exists s' : state, spawnPiece s = Ok s' /\ sessionOk s'.
Proof.
  intros (Hg & Hnf & _ & Hz & He & Hl).
  destruct (spawnPiece_ok s (boardOk_length _ Hg))
    as (s' & k & Hrun & Hcur & Hgrid & Hsz & Hse & Hsl & _).
  exists s'. split; [exact Hrun | ].
  unfold sessionOk. rewrite Hgrid, Hsz, Hse, Hsl.
  split; [exact Hg | split; [exact Hnf | split; [ | split; [exact Hz | split; assumption]]]].
  intros p Hp. rewrite Hcur in Hp. injection Hp as <-. apply spawn_pieceOk.
Qed.

Lemma startGame_ok (s : state) :
  sessionOk s -> exists s' : state, startGame s = Ok s' /\ sessionOk s'.
Proof.
  intros Hs. unfold startGame.
  set (s1 := if gameStarted s && negb (isPaused s) then resetGame s else s).
  assert (Hs1 : sessionOk s1).
  { unfold s1. destruct (gameStarted s && negb (isPaused s));
      [apply resetGame_ok | exact Hs]. }
  set (s2 := set_isPaused false (set_gameStarted true s1)).
  assert (Hs2 : sessionOk s2)
    by (apply (sessionOk_same s1); [reflexivity .. | exact Hs1]).
  assert (Hloop : forall t : state,
             sessionOk t -> sessionOk (if gameLoop t then t else set_gameLoop true t)).
  { intros t Ht. destruct (gameLoop t); [exact Ht | ].
    apply (sessionOk_same t); [reflexivity .. | exact Ht]. }
  destruct (currentPiece s2) eqn:Hcur.
  - eexists. split; [reflexivity | apply Hloop, Hs2].
  - destruct (spawnPiece_sessionOk s2 Hs2) as (s3 & Hrun & Hs3).
    rewrite Hrun. eexists. split; [reflexivity | apply Hloop, Hs3].
Qed.

Lemma togglePause_ok (now : Z) (s : state) : sessionOk s -> sessionOk (togglePause now s).
Proof.
  intros Hs. unfold togglePause.
  destruct (gameStarted s); cbn [negb]; [ | exact Hs].
  destruct (negb (isPaused (set_isPaused (negb (isPaused s)) s)));
    apply (sessionOk_same s); try reflexivity; exact Hs.
Qed.

Lemma update_ok (timestamp : Z) (s : state) :
  sessionOk s -> exists s' : state, update timestamp s = Ok s' /\ sessionOk s'.
Proof.
  intros Hs. unfold update.
  destruct (negb (gameStarted s) || isPaused s); [exists s; split; [reflexivity | exact Hs] | ].
  destruct (gtb (Int (timestamp - lastDropTime s)) (dropInterval s)).
  - destruct (movePiece_ok 0 1 s Hs) as (r & s' & Hrun & Hs' & _).
    rewrite Hrun. eexists. split; [reflexivity | ].
    apply (sessionOk_same s'); [reflexivity .. | exact Hs'].
  - eexists. split; [reflexivity | ].
    apply (sessionOk_same s); [reflexivity .. | exact Hs].
Qed.

Lemma handle_ok (ev : event) (s : state) :
  sessionOk s ->
  exists s' : state,
    (forall fuel : nat, (dropFuel s <= fuel)%nat -> handle fuel ev s = Ok s') /\
    sessionOk s'.
Proof.
  intros Hs.
  destruct (movePiece_ok (-1) 0 s Hs) as (rl & sl & Hl & Hsl & _).
  destruct (movePiece_ok 1 0 s Hs) as (rr & sr & Hr & Hsr & _).
  destruct (movePiece_ok 0 1 s Hs) as (rd & sd & Hd & Hsd & _).
  destruct (rotatePiece_ok s Hs) as (st & Ht & Hst & _).
  destruct (hardDrop_ok s Hs) as (sh & Hh & Hsh & _).
  destruct ev as [k | now b | t]; cbn [handle].
  - unfold onKeydown.
    destruct (negb (gameStarted s) || isPaused s);
      [exists s; split; [reflexivity | exact Hs] | ].
    destruct k.
    + exists sl. rewrite Hl. split; [reflexivity | exact Hsl].
    + exists sr. rewrite Hr. split; [reflexivity | exact Hsr].
    + exists sd. rewrite Hd. split; [reflexivity | exact Hsd].
    + exists st. rewrite Ht. split; [reflexivity | exact Hst].
    + exists sh. split; [intros fuel Hfuel; rewrite (Hh fuel Hfuel); reflexivity | exact Hsh].
    + exists s. split; [reflexivity | exact Hs].
  - destruct b; cbn [onClick].
    + destruct (startGame_ok s Hs) as (s' & Hrun & Hs').
      exists s'. split; [intros; exact Hrun | exact Hs'].
    + exists (togglePause now s). split; [reflexivity | apply togglePause_ok, Hs].
    + exists sl. rewrite Hl. split; [reflexivity | exact Hsl].
    + exists sr. rewrite Hr. split; [reflexivity | exact Hsr].
    + exists st. rewrite Ht. split; [reflexivity | exact Hst].
    + exists sh. split; [intros fuel Hfuel; rewrite (Hh fuel Hfuel); reflexivity | exact Hsh].
  - destruct (update_ok t s Hs) as (s' & Hrun & Hs').
    exists s'. split; [intros; exact Hrun | exact Hs'].
Qed.

(** Whatever the events and the random numbers, a session never throws,
    every hard drop in it ends, and every state on the way satisfies
    [sessionOk].  The initial state does, so the properties below that ask
    for [sessionOk] hold in every state a session can reach. *)
Lemma session_ok (evs : list event) (s : state) :
  sessionOk s ->
  exists (s' : state) (fuel0 : nat),
    (forall fuel : nat, (fuel0 <= fuel)%nat -> handleAll fuel evs s = Ok s') /\
    sessionOk s'.
Proof.
  revert s. induction evs as [|ev evs IH]; intros s Hs.
  - exists s, 0%nat. split; [reflexivity | exact Hs].
  - destruct (handle_ok ev s Hs) as (s1 & Hrun1 & Hs1).
    destruct (IH s1 Hs1) as (s' & fuel0 & Hrun & Hs').
    exists s', (Nat.max (dropFuel s) fuel0). split; [ | exact Hs'].
    intros fuel Hfuel. cbn [handleAll].
    rewrite (Hrun1 fuel) by lia. cbn [bind]. apply Hrun. lia.
Qed.

(** ** The properties of the specification *)

(** C10.  With no active piece, [movePiece], [rotatePiece] and [hardDrop]
    return at once with a falsy value ([undefined]) and leave the whole
    state, board and counters included, as it was; none of them throws. *)
Theorem no_piece_noop (fuel : nat) (dx dy : Z) (s : state) :
  currentPiece s = None ->
  movePiece dx dy s = Ok (Undefined, s) /\
  rotatePiece s = Ok (Undefined, s) /\
  hardDrop fuel s = Ok (Undefined, s) /\
  truthy_ret Undefined = false.
Proof.
  intros Hcur. unfold movePiece, rotatePiece, hardDrop. rewrite Hcur.
  repeat split; reflexivity.
Qed.

Lemma no_piece_noop_witness :
  let s := initialState (fun _ => 0%nat) in
  movePiece (-1) 0 s = Ok (Undefined, s) /\
  rotatePiece s = Ok (Undefined, s) /\
  hardDrop 0 s = Ok (Undefined, s) /\
  truthy_ret Undefined = false.
Proof. exact (no_piece_noop 0 (-1) 0 (initialState (fun _ => 0%nat)) eq_refl). Defined.

(** ** A session with a high score *)

Lemma handleAll_app (fuel : nat) (evs1 evs2 : list event) (s : state) :
  handleAll fuel (evs1 ++ evs2) s
  = do s1 <- handleAll fuel evs1 s; handleAll fuel evs2 s1.
Proof.
  revert s. induction evs1 as [|ev evs1 IH]; intros s; [reflexivity | ].
  cbn [app handleAll]. destruct (handle fuel ev s); cbn [bind]; [apply IH | | ];
    reflexivity.
Qed.

Lemma highScoreSession_reaches :
  handleAll 21 highScoreSession (initialState (fun _ => 0%nat)) = Ok highScoreState.
Proof. vm_compute. reflexivity. Qed.

(** C3, as stated, fails.  One more press of the down arrow after
    [highScoreSession] locks the piece, clears three rows and spawns the
    next piece, with score and energy at 10549226026718944, above [2^53].
    In that state [movePiece (0, 1)] does not collide and moves the piece
    down, and score and energy are what they were: the sum with 1 is not a
    double and is rounded back. *)
Lemma move_down_without_point :
  exists (s s' : state) (p : piece) (z : Z),
    handleAll 21 (highScoreSession ++ [Keydown ArrowDown])
      (initialState (fun _ => 0%nat)) = Ok s /\
    currentPiece s = Some p /\
    checkCollision (grid s) (piece_x p + 0) (piece_y p + 1) (piece_shape p) = Ok false /\
    movePiece 0 1 s = Ok (Bool true, s') /\
    currentPiece s' = Some {| piece_shape := piece_shape p;
                              piece_color := piece_color p;
                              piece_x := piece_x p;
                              piece_y := piece_y p + 1 |} /\
    score s = Int z /\ energy s = Int z /\ 2 ^ 53 <= z /\
    score s' = Int z /\ energy s' = Int z.
Proof.
  do 4 eexists.
  split; [rewrite handleAll_app, highScoreSession_reaches; vm_compute; reflexivity | ].
  split; [reflexivity | ].
  split; [vm_compute; reflexivity | ].
  split; [vm_compute; reflexivity | ].
  split; [reflexivity | ].
  split; [reflexivity | ].
  split; [reflexivity | ].
  split; [vm_compute; discriminate | ].
  split; reflexivity.
Qed.

(** C3, amended.  In a state of a session with an active piece,
    [movePiece (dx, dy)] checks the position moved by (dx, dy).  If it
    collides and [dy > 0], the piece is locked (its cells on rows [>= 0] are
    written into the board with its color, the full rows are cleared and the
    next piece is spawned) and the call returns [false].  If it collides and
    [dy <= 0] (so also for [dy = 0]), the call returns [false] and the state
    is untouched.  If it is free, the call returns [true], the piece has the
    new coordinates, the board is the same, and score and energy are left
    alone when [dy <= 0] and replaced by the double nearest to their value
    plus 1 when [dy > 0]: that is one more for a counter below [2^53], it is
    never one more for a counter from [2^53] on, and it is never less than
    the counter was. *)
Theorem movePiece_cases (dx dy : Z) (s : state) (p : piece) :
  sessionOk s -> currentPiece s = Some p ->
  exists hit : bool,
    checkCollision (grid s) (piece_x p + dx) (piece_y p + dy) (piece_shape p) = Ok hit /\
    (hit = true -> dy > 0 ->
     exists (g' : board) (s' : state),
       lockCells (grid s) p = Ok g' /\
       (forall cx cy : Z,
           cellAt g' cx cy
           = if covers p cx cy && (0 <=? cy) then Some (Tag (piece_color p))
             else cellAt (grid s) cx cy) /\
       lockPiece s = Ok s' /\ grid s' = compacted g' /\
       movePiece dx dy s = Ok (Bool false, s')) /\
    (hit = true -> dy <= 0 -> movePiece dx dy s = Ok (Bool false, s)) /\
    (hit = false ->
     exists s' : state,
       movePiece dx dy s = Ok (Bool true, s') /\
       currentPiece s' = Some {| piece_shape := piece_shape p;
                                 piece_color := piece_color p;
                                 piece_x := piece_x p + dx;
                                 piece_y := piece_y p + dy |} /\
       grid s' = grid s /\
       score s' = (if dy >? 0 then add (score s) (Int 1) else score s) /\
       energy s' = (if dy >? 0 then add (energy s) (Int 1) else energy s) /\
       level s' = level s /\ dropInterval s' = dropInterval s /\
       treasureUnlocked s' = treasureUnlocked s /\
       (forall z : Z,
           dy > 0 -> score s = Int z ->
           (z < 2 ^ 53 -> score s' = Int (z + 1)) /\
           (isDouble z = true -> 2 ^ 53 <= z -> score s' <> Int (z + 1))) /\
       (forall e : Z,
           dy > 0 -> energy s = Int e ->
           (e < 2 ^ 53 -> energy s' = Int (e + 1)) /\
           (isDouble e = true -> 2 ^ 53 <= e -> energy s' <> Int (e + 1))) /\
       num_le (score s) (score s') /\ num_le (energy s) (energy s')).
Proof.
  intros Hs Hcur. pose proof Hs as (Hg & _ & Hp & Hz & He & _).
  pose proof (boardOk_length _ Hg) as Hlen.
  exists (collides (grid s) (piece_x p + dx) (piece_y p + dy) (piece_shape p)).
  split; [apply checkCollision_collides, Hlen | ].
  rewrite (movePiece_eq dx dy s p Hlen Hcur).
  split; [ | split]; intros Hhit; rewrite Hhit.
  - intros Hdy. destruct (Z.gtb_spec dy 0) as [_|Hc]; [ | lia].
    destruct (lockPiece_board s p Hs Hcur) as (g' & s' & k & Hcells & Hlock & Hgrid & _).
    exists g', s'. rewrite Hlock.
    split; [exact Hcells | split; [ | split; [reflexivity | split; [exact Hgrid | reflexivity]]]].
    apply lockCells_cells; [exact Hg | exact (Hp p Hcur) | exact Hcells].
  - intros Hdy. destruct (Z.gtb_spec dy 0) as [Hc|_]; [lia | reflexivity].
  - eexists. split; [reflexivity | ].
    destruct (movePiece_commit_ok dx dy p s Hs Hcur Hhit) as (_ & Hzle & Hele).
    split; [unfold movePiece_commit; destruct (dy >? 0); reflexivity | ].
    split; [unfold movePiece_commit; destruct (dy >? 0); reflexivity | ].
    split; [unfold movePiece_commit; destruct (dy >? 0); reflexivity | ].
    split; [unfold movePiece_commit; destruct (dy >? 0); reflexivity | ].
    split; [unfold movePiece_commit; destruct (dy >? 0); reflexivity | ].
    split; [unfold movePiece_commit; destruct (dy >? 0); reflexivity | ].
    split; [unfold movePiece_commit; destruct (dy >? 0); reflexivity | ].
    split; [ | split; [ | split; [exact Hzle | exact Hele]]].
    + intros z Hdy Hsz. unfold movePiece_commit.
      destruct (Z.gtb_spec dy 0) as [_|Hc]; [ | lia].
      cbn. rewrite Hsz in Hz |- *. simpl in Hz.
      split; [intros Hlt; apply add_one_exact; lia | apply add_one_inexact].
    + intros e Hdy Hse. unfold movePiece_commit.
      destruct (Z.gtb_spec dy 0) as [_|Hc]; [ | lia].
      cbn. rewrite Hse in He |- *. simpl in He.
      split; [intros Hlt; apply add_one_exact; lia | apply add_one_inexact].
Qed.

Lemma movePiece_cases_witness :
  exists s' : state,
    movePiece 0 1 (spawnedState KT) = Ok (Bool true, s') /\
    currentPiece s' = Some {| piece_shape := SHAPES KT; piece_color := COLORS KT;
                              piece_x := 4; piece_y := 1 |} /\
    score s' = Int 1 /\ energy s' = Int 1.
Proof.
  destruct (movePiece_cases 0 1 (spawnedState KT) _
              (stateOk_sessionOk _ (spawnedState_ok KT)) eq_refl)
    as (hit & Hhit & _ & _ & Hfree).
  assert (Hfalse : hit = false).
  { vm_compute in Hhit. injection Hhit as <-. reflexivity. }
  destruct (Hfree Hfalse) as (s' & Hmove & Hcur & _ & _ & _ & _ & _ & _ & Hz & He & _).
  exists s'. split; [exact Hmove | split; [exact Hcur | ]].
  split.
  - apply (Hz 0); [lia | reflexivity | vm_compute; reflexivity].
  - apply (He 0); [lia | reflexivity | vm_compute; reflexivity].
Defined.

(** C4, as stated, fails.  In the state [highScoreSession] ends in, the
    score is 7032817351145945 and the level 7032817351146.  Locking the
    piece completes three rows, worth 500 times the level.  The sum,
    10549226026718945, is odd and above [2^53], so it is not a double: the
    score and the energy that [clearLines] leaves are one less. *)
Lemma line_points_rounded :
  exists (s s' : state) (p : piece) (g : board) (z l : Z),
    handleAll 21 highScoreSession (initialState (fun _ => 0%nat)) = Ok s /\
    currentPiece s = Some p /\ lockCells (grid s) p = Ok g /\
    countFull g = 3%nat /\ clearLines (set_grid g s) = Ok s' /\
    score s = Int z /\ energy s = Int z /\ level s = Int l /\ z < 2 ^ 53 /\
    score s' = Int (z + tablePoints 3 * l - 1) /\
    energy s' = Int (z + tablePoints 3 * l - 1).
Proof.
  do 6 eexists.
  split; [exact highScoreSession_reaches | ].
  split; [reflexivity | ].
  split; [vm_compute; reflexivity | ].
  split; [vm_compute; reflexivity | ].
  split; [vm_compute; reflexivity | ].
  split; [reflexivity | ].
  split; [reflexivity | ].
  split; [reflexivity | ].
  split; [vm_compute; reflexivity | ].
  split; vm_compute; reflexivity.
Qed.

(** C4, amended.  On a board of full height [clearLines] returns with the
    board compacted.  When [n], the number of full rows it removed, is
    between 1 and 4, the points are [tablePoints n] (100, 300, 500, 800)
    times the level, score and energy grow by the points, the level is
    [floor (score / 1000) + 1] of the new score and the drop interval is
    [max (100, 1000 - (level - 1) * 100)] of the new level, each operation
    with the rounding of doubles; these are the exact integer values as long
    as the new score and the new energy are below [2^53].  When [n] is 0,
    score, energy, level and drop interval are unchanged. *)
Theorem clearLines_scoring (s : state) :
  length (grid s) = Z.to_nat GRID_HEIGHT ->
  exists s' : state,
    clearLines s = Ok s' /\
    grid s' = compacted (grid s) /\
    (countFull (grid s) = 0%nat ->
     score s' = score s /\ energy s' = energy s /\
     level s' = level s /\ dropInterval s' = dropInterval s) /\
    ((1 <= countFull (grid s) <= 4)%nat ->
     let points := mul (Int (tablePoints (countFull (grid s)))) (level s) in
     score s' = add (score s) points /\
     energy s' = add (energy s) points /\
     level s' = add (floor_div (score s') 1000) (Int 1) /\
     dropInterval s'
     = max (Int 100) (sub (Int 1000) (mul (sub (level s') (Int 1)) (Int 100))) /\
     forall z e l : Z,
       score s = Int z -> energy s = Int e -> level s = Int l ->
       0 <= z -> 0 <= e -> 0 <= l ->
       z + tablePoints (countFull (grid s)) * l < 2 ^ 53 ->
       e + tablePoints (countFull (grid s)) * l < 2 ^ 53 ->
       let exactPoints := tablePoints (countFull (grid s)) * l in
       let level' := (z + exactPoints) / 1000 + 1 in
       score s' = Int (z + exactPoints) /\
       energy s' = Int (e + exactPoints) /\
       level s' = Int level' /\
       dropInterval s' = Int (Z.max 100 (1000 - (level' - 1) * 100))).
Proof.
  intros Hlen. rewrite (clearLines_eq s Hlen).
  eexists. split; [reflexivity | ].
  set (n := countFull (grid s)). set (s0 := set_grid (compacted (grid s)) s).
  split; [ | split].
  - apply awardLines_grid.
  - intros ->. repeat split; reflexivity.
  - intros Hn. cbv zeta.
    destruct (awardLines_fields n s0 ltac:(lia)) as (_ & _ & Hz' & He' & Hl' & Hd').
    rewrite (linePoints_table n) in Hz', He', Hl', Hd' by exact Hn.
    change (score s0) with (score s) in *. change (energy s0) with (energy s) in *.
    change (level s0) with (level s) in *.
    split; [exact Hz' | ]. split; [exact He' | ].
    split; [rewrite Hl', Hz'; reflexivity | ].
    split; [rewrite Hd', Hl'; reflexivity | ].
    intros z e l Hsz Hse Hsl Hz0 He0 Hl0 Hzb Heb.
    destruct (basePoints_table n Hn) as [_ Hb].
    assert (Htab : tablePoints n <= 800)
      by (destruct n as [|[|[|[|[|n]]]]]; simpl; lia).
    set (b := tablePoints n) in *.
    assert (Hpts : 0 <= b * l) by nia.
    assert (Hlb : l <= b * l) by nia.
    assert (Hmul : mul (Int b) (Int l) = Int (b * l))
      by (apply mul_exact; rewrite ?Z.abs_eq by lia; lia).
    assert (Hscore : score (awardLines n s0) = Int (z + b * l)).
    { rewrite Hz', Hsz, Hsl, Hmul.
      apply add_exact; rewrite ?Z.abs_eq by lia; lia. }
    assert (Henergy : energy (awardLines n s0) = Int (e + b * l)).
    { rewrite He', Hse, Hsl, Hmul.
      apply add_exact; rewrite ?Z.abs_eq by lia; lia. }
    pose proof (Z.div_pos (z + b * l) 1000 ltac:(lia) ltac:(lia)) as Hq0.
    assert (Hq : (z + b * l) / 1000 * 1000 <= z + b * l)
      by (pose proof (Z.mul_div_le (z + b * l) 1000 ltac:(lia)); lia).
    assert (Hlevel : level (awardLines n s0) = Int ((z + b * l) / 1000 + 1)).
    { rewrite Hl', Hsz, Hsl, Hmul.
      rewrite (add_exact z (b * l)) by (rewrite ?Z.abs_eq by lia; lia).
      rewrite floor_div_exact by lia.
      apply add_exact; rewrite ?Z.abs_eq by lia; lia. }
    split; [exact Hscore | split; [exact Henergy | split; [exact Hlevel | ]]].
    rewrite Hd', Hsz, Hsl, Hmul.
    rewrite (add_exact z (b * l)) by (rewrite ?Z.abs_eq by lia; lia).
    rewrite floor_div_exact by lia.
    rewrite (add_exact ((z + b * l) / 1000) 1) by (rewrite ?Z.abs_eq by lia; lia).
    rewrite (sub_exact ((z + b * l) / 1000 + 1) 1) by (rewrite ?Z.abs_eq by lia; lia).
    rewrite (mul_exact ((z + b * l) / 1000 + 1 - 1) 100)
      by (rewrite ?Z.abs_eq by lia; lia).
    rewrite sub_exact by
      (rewrite ?(Z.abs_eq 1000), ?(Z.abs_eq (_ * 100)) by lia; lia).
    reflexivity.
Qed.

Lemma clearLines_scoring_witness :
  exists s' : state,
    clearLines oneRowState = Ok s' /\
    score s' = Int 1050 /\ energy s' = Int 100 /\
    level s' = Int 2 /\ dropInterval s' = Int 900.
Proof.
  destruct (clearLines_scoring oneRowState eq_refl)
    as (s' & Hrun & _ & _ & Hscored).
  exists s'. split; [exact Hrun | ].
  assert (Hn : (1 <= countFull (grid oneRowState) <= 4)%nat)
    by (vm_compute; split; [apply le_n | repeat constructor]).
  destruct (Hscored Hn) as (_ & _ & _ & _ & Hexact).
  apply (Hexact 950 0 1); try reflexivity; vm_compute; congruence.
Defined.

(** C5, as stated, fails.  In the session [twoRowsSession] the last piece
    completes rows 18 and 19 at once: row 19 of the board it is locked into
    is full, and once that row is removed and a fresh row put on top, the row
    now at index 19 (the former row 18) is full again. *)
Lemma shifted_row_can_be_full :
  exists (s : state) (p : piece) (g : board) (r0 r1 : row),
    handleAll 21 twoRowsSession (initialState (fun _ => 1%nat)) = Ok s /\
    currentPiece s = Some p /\ lockCells (grid s) p = Ok g /\
    g !! 19%nat = Some r0 /\ rowFull r0 = true /\
    removeRow 19 g !! 19%nat = Some r1 /\ rowFull r1 = true.
Proof.
  do 5 eexists.
  split; [vm_compute; reflexivity | ].
  split; [vm_compute; reflexivity | ].
  split; [vm_compute; reflexivity | ].
  split; [vm_compute; reflexivity | ].
  split; [vm_compute; reflexivity | ].
  split; vm_compute; reflexivity.
Qed.

(** C5, amended.  After the row at index [r] is removed and a fresh row put
    on top, the row at index [r] is the former row [r - 1], full or not.
    Examining index [r] again is what removes it when it is full: on every
    board of full height the loop of [clearLines] returns the board without
    any of its full rows, as many fresh rows on top as it removed, and the
    number of rows that were full. *)
Theorem clearLines_removes_all_full (g : board) :
  length g = Z.to_nat GRID_HEIGHT ->
  (forall (r : nat) (above : row),
      (0 < r)%nat -> g !! (r - 1)%nat = Some above ->
      removeRow r g !! r = Some above) /\
  clearLines_loop clearLines_fuel (GRID_HEIGHT - 1) g 0
  = Ok (compacted g, countFull g) /\
  noFullRow (compacted g) = true.
Proof.
  intros Hlen. split; [ | split].
  - intros r above Hr Habove. unfold removeRow.
    destruct r as [|r]; [lia | ].
    replace (S r - 1)%nat with r in Habove by lia.
    change ((emptyRow :: delete (S r) g) !! S r) with (delete (S r) g !! r).
    rewrite list_lookup_delete_lt by lia. exact Habove.
  - apply clearLines_loop_total, Hlen.
  - apply compacted_noFullRow.
Qed.

Lemma clearLines_removes_all_full_witness :
  clearLines_loop clearLines_fuel (GRID_HEIGHT - 1) (grid oneRowState) 0
  = Ok (resetGrid, 1%nat).
Proof.
  destruct (clearLines_removes_all_full (grid oneRowState) eq_refl) as (_ & Hrun & _).
  rewrite Hrun. reflexivity.
Defined.

(** C6, as stated, fails.  In the state reached by one more press of the
    down arrow after [highScoreSession], score and energy are
    10549226026718944, above [2^53].  A hard drop from there moves the piece
    down 19 times with success, and none of these steps changes the score or
    the energy; the call that fails locks the piece without a full row, and
    the hard drop ends with the bonus of 38 only: 10549226026718982, and not
    57 more than at the start. *)
Lemma hard_drop_steps_without_points :
  exists (s sd s' sf : state) (z : Z),
    handleAll 21 (highScoreSession ++ [Keydown ArrowDown])
      (initialState (fun _ => 0%nat)) = Ok s /\
    moveDown 19 s = Ok sd /\
    (forall i : nat, (i < 19)%nat ->
       exists si sj : state,
         moveDown i s = Ok si /\ movePiece 0 1 si = Ok (Bool true, sj)) /\
    movePiece 0 1 sd = Ok (Bool false, s') /\
    hardDrop 21 s = Ok (Undefined, sf) /\
    score s = Int z /\ energy s = Int z /\ 2 ^ 53 <= z /\
    score sd = Int z /\ energy sd = Int z /\
    score s' = Int z /\ energy s' = Int z /\
    score sf = Int (z + 19 * 2) /\ energy sf = Int (z + 19 * 2).
Proof.
  do 5 eexists.
  split; [rewrite handleAll_app, highScoreSession_reaches; vm_compute; reflexivity | ].
  split; [vm_compute; reflexivity | ].
  split.
  { intros i Hi.
    do 19 (destruct i as [|i];
           [do 2 eexists; split; [vm_compute; reflexivity | vm_compute; reflexivity] | ]).
    lia. }
  split; [vm_compute; reflexivity | ].
  split; [vm_compute; reflexivity | ].
  split; [reflexivity | ].
  split; [reflexivity | ].
  split; [vm_compute; discriminate | ].
  repeat split; reflexivity.
Qed.

(** C6, amended.  In a state of a session with an active piece, given the
    fuel to reach the floor, [hardDrop] returns, and it is the repetition of
    [movePiece (0, 1)]: for some [dropDistance], the first [dropDistance]
    calls succeed one after the other, each doing [+= 1] on score and
    energy, the next call fails, and the state [hardDrop] leaves is the
    state that failing call left with [dropDistance * 2] added to score and
    to energy and nothing else changed.  The additions are those of doubles:
    the steps are worth [dropDistance] and the bonus twice that as long as
    the sums stay below [2^53], and neither counter goes down. *)
Theorem hardDrop_repeats_move (fuel : nat) (s : state) (p : piece) :
  sessionOk s -> currentPiece s = Some p -> (dropFuel s <= fuel)%nat ->
  exists (dropDistance : nat) (sd s' sf : state),
    moveDown dropDistance s = Ok sd /\
    (forall i : nat, (i < dropDistance)%nat ->
       exists si sj : state,
         moveDown i s = Ok si /\ movePiece 0 1 si = Ok (Bool true, sj)) /\
    score sd = addOnes dropDistance (score s) /\
    energy sd = addOnes dropDistance (energy s) /\
    movePiece 0 1 sd = Ok (Bool false, s') /\
    hardDrop fuel s = Ok (Undefined, sf) /\
    score sf = add (score s') (Int (Z.of_nat dropDistance * 2)) /\
    energy sf = add (energy s') (Int (Z.of_nat dropDistance * 2)) /\
    sf = set_energy (energy sf) (set_score (score sf) s') /\
    (forall z : Z,
        score s = Int z -> z + Z.of_nat dropDistance < 2 ^ 53 ->
        score sd = Int (z + Z.of_nat dropDistance)) /\
    (forall e : Z,
        energy s = Int e -> e + Z.of_nat dropDistance < 2 ^ 53 ->
        energy sd = Int (e + Z.of_nat dropDistance)) /\
    (forall z' : Z,
        score s' = Int z' -> z' + Z.of_nat dropDistance * 2 < 2 ^ 53 ->
        score sf = Int (z' + Z.of_nat dropDistance * 2)) /\
    (forall e' : Z,
        energy s' = Int e' -> e' + Z.of_nat dropDistance * 2 < 2 ^ 53 ->
        energy sf = Int (e' + Z.of_nat dropDistance * 2)) /\
    num_le (score s) (score sf) /\ num_le (energy s) (energy sf).
Proof.
  intros Hs Hcur Hfuel. unfold dropFuel in Hfuel. rewrite Hcur in Hfuel.
  pose proof Hs as (_ & _ & _ & Hz & He & _).
  destruct (hardDrop_loop_ok _ s p Hs Hcur (Nat.le_refl _)) as
    (n & sn & s' & Hdown & Hsteps & Hlast & Hzn & Hen & Hs' & Hzle & Hele & Hloop).
  destruct (addBonus_ok n s' Hs') as (_ & Hzle' & Hele').
  pose proof Hs' as (_ & _ & _ & Hz' & He' & _).
  exists n, sn, s', (addBonus n s').
  split; [exact Hdown | split; [exact Hsteps | ]].
  split; [exact Hzn | split; [exact Hen | split; [exact Hlast | ]]].
  split; [unfold hardDrop; rewrite Hcur, (Hloop fuel 0%nat Hfuel); reflexivity | ].
  split; [reflexivity | split; [reflexivity | ]].
  split; [destruct s'; reflexivity | ].
  split; [ | split; [ | split; [ | split; [ | split]]]].
  - intros z Hsz Hb. rewrite Hzn, Hsz. rewrite Hsz in Hz. simpl in Hz.
    apply addOnes_exact; lia.
  - intros e Hse Hb. rewrite Hen, Hse. rewrite Hse in He. simpl in He.
    apply addOnes_exact; lia.
  - intros z' Hsz Hb. change (score (addBonus n s')) with
      (add (score s') (Int (Z.of_nat n * 2))).
    rewrite Hsz. rewrite Hsz in Hz'. simpl in Hz'.
    apply add_exact; rewrite ?Z.abs_eq by lia; lia.
  - intros e' Hse Hb. change (energy (addBonus n s')) with
      (add (energy s') (Int (Z.of_nat n * 2))).
    rewrite Hse. rewrite Hse in He'. simpl in He'.
    apply add_exact; rewrite ?Z.abs_eq by lia; lia.
  - eapply num_le_trans; eassumption.
  - eapply num_le_trans; eassumption.
Qed.

Lemma hardDrop_repeats_move_witness :
  exists sf : state,
    hardDrop 20 (spawnedState KO) = Ok (Undefined, sf) /\ score sf = Int 54.
Proof.
  destruct (hardDrop_repeats_move 20 (spawnedState KO) _
              (stateOk_sessionOk _ (spawnedState_ok KO)) eq_refl)
    as (d & sd & s' & sf & _ & _ & _ & _ & _ & Hrun & _);
    [vm_compute; lia | ].
  exists sf. split; [exact Hrun | ].
  vm_compute in Hrun. injection Hrun as <-. reflexivity.
Defined.

Lemma runOp_ok (o : op) (s : state) :
  sessionOk s ->
  exists s' : state,
    (forall fuel : nat, (dropFuel s <= fuel)%nat -> runOp fuel o s = Ok s') /\
    sessionOk s' /\ num_le (score s) (score s') /\ num_le (energy s) (energy s').
Proof.
  intros Hs. destruct o as [dx dy| | |]; cbn [runOp].
  - destruct (movePiece_ok dx dy s Hs) as (r & s' & Hrun & Hok & Hle).
    exists s'. rewrite Hrun. split; [reflexivity | split; assumption].
  - destruct (rotatePiece_ok s Hs) as (s' & Hrun & Hok & _ & Hz & He).
    pose proof Hs as (_ & _ & _ & Hsz & Hse & _).
    exists s'. rewrite Hrun, Hz, He.
    split; [reflexivity | split; [exact Hok | ]].
    split; [apply (counterOk_num_le 0), Hsz | apply (counterOk_num_le 0), Hse].
  - destruct (hardDrop_ok s Hs) as (s' & Hrun & Hok & Hle).
    exists s'. split; [ | split; assumption].
    intros fuel Hfuel. rewrite (Hrun fuel Hfuel). reflexivity.
  - destruct (lockPiece_ok s Hs) as (s' & Hrun & Hok & Hle).
    exists s'. split; [intros; exact Hrun | split; assumption].
Qed.

Lemma runOps_ok (ops : list op) (s : state) :
  sessionOk s ->
  exists (s' : state) (fuel0 : nat),
    (forall fuel : nat, (fuel0 <= fuel)%nat -> runOps fuel ops s = Ok s') /\
    sessionOk s' /\ num_le (score s) (score s') /\ num_le (energy s) (energy s').
Proof.
  revert s. induction ops as [|o ops IH]; intros s Hs.
  - pose proof Hs as (_ & _ & _ & Hz & He & _).
    exists s, 0%nat. split; [reflexivity | split; [exact Hs | ]].
    split; [apply (counterOk_num_le 0), Hz | apply (counterOk_num_le 0), He].
  - destruct (runOp_ok o s Hs) as (s1 & Hrun1 & Hs1 & Hz1 & He1).
    destruct (IH s1 Hs1) as (s' & fuel0 & Hrun & Hs' & Hz' & He').
    exists s', (Nat.max (dropFuel s) fuel0).
    split; [ | split; [exact Hs' | split; eapply num_le_trans; eassumption]].
    intros fuel Hfuel. cbn [runOps].
    rewrite (Hrun1 fuel) by lia. cbn [bind]. apply Hrun. lia.
Qed.

(** C7.  From a well-formed state, every sequence of [movePiece],
    [rotatePiece], [hardDrop] and [lockPiece] calls runs to its end (given
    fuel for the hard drops), and score and energy at the end are at least
    what they were at the start.  So neither can go back to 0 on the way:
    one that is 0 at the end was 0 at the start.  [resetGame] sets both
    to 0. *)
Theorem score_energy_monotone (ops : list op) (s : state) :
  stateOk s ->
  exists s' : state,
    (exists fuel0 : nat,
        forall fuel : nat, (fuel0 <= fuel)%nat -> runOps fuel ops s = Ok s') /\
    num_le (score s) (score s') /\ num_le (energy s) (energy s') /\
    (score s' = Int 0 -> score s = Int 0) /\
    (energy s' = Int 0 -> energy s = Int 0) /\
    score (resetGame s') = Int 0 /\ energy (resetGame s') = Int 0.
Proof.
  intros Hs.
  destruct (runOps_ok ops s (stateOk_sessionOk s Hs)) as (s' & fuel0 & Hrun & _ & Hz & He).
  pose proof Hs as (_ & _ & _ & (z & Hsz & Hz0) & (e & Hse & He0) & _).
  exists s'. split; [exists fuel0; exact Hrun | ].
  split; [exact Hz | split; [exact He | ]].
  split; [ | split; [ | split; reflexivity]].
  - intros H0. rewrite Hsz, H0 in Hz. simpl in Hz. rewrite Hsz. f_equal. lia.
  - intros H0. rewrite Hse, H0 in He. simpl in He. rewrite Hse. f_equal. lia.
Qed.

Lemma score_energy_monotone_witness :
  exists s' : state,
    (exists fuel0 : nat,
        forall fuel : nat, (fuel0 <= fuel)%nat ->
          runOps fuel [OpMove (-1) 0; OpRotate; OpHardDrop; OpMove 0 1; OpLock]
            (spawnedState KT) = Ok s') /\
    num_le (score (spawnedState KT)) (score s').
Proof.
  destruct (score_energy_monotone
              [OpMove (-1) 0; OpRotate; OpHardDrop; OpMove 0 1; OpLock]
              (spawnedState KT) (spawnedState_ok KT))
    as (s' & Hrun & Hz & _).
  exists s'. split; [exact Hrun | exact Hz].
Defined.




(** ** Rotation *)

Lemma rotatePiece_accept (s : state) (p : piece) (sh' : shape) :
  currentPiece s = Some p -> rotate (piece_shape p) = Ok sh' ->
  checkCollision (grid s) (piece_x p) (piece_y p) sh' = Ok false ->
  rotatePiece s
  = Ok (Undefined,
        set_currentPiece
          (Some {| piece_shape := sh'; piece_color := piece_color p;
                   piece_x := piece_x p; piece_y := piece_y p |}) s).
Proof.
  intros Hcur Hrot Hfree. unfold rotatePiece.
  rewrite Hcur, Hrot. cbn [bind]. rewrite Hfree. reflexivity.
Qed.

Lemma rotate_turns (k : shapeKey) :
  rotate (SHAPES k) = Ok (turn (SHAPES k)) /\
  rotate (turn (SHAPES k)) = Ok (turn (turn (SHAPES k))) /\
  rotate (turn (turn (SHAPES k))) = Ok (turn (turn (turn (SHAPES k)))) /\
  rotate (turn (turn (turn (SHAPES k)))) = Ok (SHAPES k).
Proof. destruct k; repeat split; reflexivity. Qed.

(** C9.  For each of the seven catalog shapes, the rotation of [rotatePiece]
    (row [i] of the result is column [i] read from the bottom up, a quarter
    turn clockwise) applied four times gives back the very same matrix; and
    on a board where no orientation of the piece collides at its position,
    four calls of [rotatePiece] leave the state, piece included, exactly as
    it was. *)
Theorem rotate_four_times (k : shapeKey) :
  rotate4 (SHAPES k) = Ok (SHAPES k) /\
  forall (s : state) (p : piece),
    currentPiece s = Some p -> piece_shape p = SHAPES k ->
    (forall sh : shape,
        In sh (orientations k) ->
        checkCollision (grid s) (piece_x p) (piece_y p) sh = Ok false) ->
    rotatePiece4 s = Ok (Undefined, s).
Proof.
  split; [destruct k; reflexivity | ].
  intros s p Hcur Hshape Hfree.
  destruct (rotate_turns k) as (H1 & H2 & H3 & H4).
  assert (F0 : checkCollision (grid s) (piece_x p) (piece_y p) (SHAPES k) = Ok false)
    by (apply Hfree; left; reflexivity).
  assert (F1 : checkCollision (grid s) (piece_x p) (piece_y p) (turn (SHAPES k))
               = Ok false)
    by (apply Hfree; right; left; reflexivity).
  assert (F2 : checkCollision (grid s) (piece_x p) (piece_y p) (turn (turn (SHAPES k)))
               = Ok false)
    by (apply Hfree; right; right; left; reflexivity).
  assert (F3 : checkCollision (grid s) (piece_x p) (piece_y p)
                 (turn (turn (turn (SHAPES k)))) = Ok false)
    by (apply Hfree; right; right; right; left; reflexivity).
  unfold rotatePiece4.
  rewrite (rotatePiece_accept s p (turn (SHAPES k)) Hcur)
    by (rewrite ?Hshape; assumption).
  cbn [bind snd].
  erewrite (rotatePiece_accept _ _ (turn (turn (SHAPES k))));
    [ | reflexivity | exact H2 | exact F2].
  cbn [bind snd].
  erewrite (rotatePiece_accept _ _ (turn (turn (turn (SHAPES k)))));
    [ | reflexivity | exact H3 | exact F3].
  cbn [bind snd].
  erewrite (rotatePiece_accept _ _ (SHAPES k));
    [ | reflexivity | exact H4 | exact F0].
  f_equal. f_equal.
  destruct s, p. cbn in Hcur, Hshape |- *. subst. reflexivity.
Qed.

Lemma rotate_four_times_witness :
  rotatePiece4 (spawnedState KT) = Ok (Undefined, spawnedState KT).
Proof.
  apply (proj2 (rotate_four_times KT) (spawnedState KT) _ eq_refl eq_refl).
  intros sh Hsh. cbv [orientations] in Hsh.
  repeat (destruct Hsh as [<- | Hsh]; [reflexivity | ]).
  destruct Hsh.
Defined.

(** ** Game over *)

Lemma stopped_keydown_update (fuel : nat) (s : state) :
  gameStarted s = false ->
  (forall k : key, onKeydown fuel k s = Ok s) /\
  (forall timestamp : Z, update timestamp s = Ok s).
Proof.
  intros Hstopped. unfold onKeydown, update. rewrite Hstopped.
  split; intros; reflexivity.
Qed.

(** C2, what the code does.  The session [topOutSession] ends with a spawn
    that collides: the game-over status is set.  From then on key presses
    and animation frames change nothing, since their handlers test
    [gameStarted].  The button listeners do not: a click on the down button
    locks the piece that could not be placed into the board, and a click on
    the right button moves it. *)
Theorem topOut_buttons_still_act :
  exists s s1 s2 : state,
    handleAll 21 topOutSession (initialState (fun _ => 0%nat)) = Ok s /\
    gameStarted s = false /\
    (forall k : key, onKeydown 21 k s = Ok s) /\
    (forall timestamp : Z, update timestamp s = Ok s) /\
    onClick 21 0 downBtn s = Ok s1 /\ grid s1 <> grid s /\
    onClick 21 0 rightBtn s = Ok s2 /\ currentPiece s2 <> currentPiece s.
Proof.
  do 3 eexists.
  split; [vm_compute; reflexivity | ].
  split; [reflexivity | ].
  split; [apply (stopped_keydown_update 21); reflexivity | ].
  split; [apply (stopped_keydown_update 21); reflexivity | ].
  split; [vm_compute; reflexivity | ].
  split; [vm_compute; discriminate | ].
  split; [vm_compute; reflexivity | ].
  vm_compute; discriminate.
Qed.

(** ** Further properties of the engine *)

Lemma sub_one_counter (l : num) : counterOk 1 l -> counterOk 0 (sub l (Int 1)).
Proof.
  destruct l as [|x| |]; simpl; intros Hx; try contradiction; [ | exact I].
  destruct (isDouble x && isDouble 1); [ | simpl; lia].
  unfold roundDouble. destruct (Z.ltb_spec (x - 1) 0) as [Hc|_]; [lia | ].
  destruct (roundNonneg (x - 1)) as [v|] eqn:Hv; simpl; [ | exact I].
  apply (roundNonneg_nonneg (x - 1) v); [lia | exact Hv].
Qed.

Lemma mul_hundred_counter (a : num) : counterOk 0 a -> counterOk 0 (mul a (Int 100)).
Proof.
  destruct a as [|x| |]; simpl; intros Hx; try contradiction; [ | exact I].
  destruct (isDouble x && isDouble 100); [ | simpl; lia].
  unfold roundDouble. destruct (Z.ltb_spec (x * 100) 0) as [Hc|_]; [lia | ].
  destruct (roundNonneg (x * 100)) as [v|] eqn:Hv; simpl; [ | exact I].
  apply (roundNonneg_nonneg (x * 100) v); [lia | exact Hv].
Qed.

(** [max (100, 1000 - b)] for a counter [b] is between 100 and 1000. *)
Lemma interval_range (b : num) :
  counterOk 0 b ->
  exists d : Z, max (Int 100) (sub (Int 1000) b) = Int d /\ 100 <= d <= 1000.
Proof.
  destruct b as [|x| |]; simpl; intros Hx; try contradiction;
    [ | exists 100; split; [reflexivity | lia]].
  destruct (isDouble x);
    [ | exists (Z.max 100 (1000 - x)); split; [reflexivity | lia]].
  unfold roundDouble. destruct (Z.ltb_spec (1000 - x) 0) as [Hneg|Hpos].
  - destruct (roundNonneg (- (1000 - x))) as [v|] eqn:Hv.
    + pose proof (roundNonneg_nonneg (- (1000 - x)) v ltac:(lia) Hv).
      exists (Z.max 100 (- v)). split; [reflexivity | lia].
    + exists 100. split; [reflexivity | lia].
  - rewrite roundNonneg_small by lia.
    exists (Z.max 100 (1000 - x)). split; [reflexivity | lia].
Qed.

(** X1.  Whatever the stream of random numbers and whatever key presses,
    button clicks and animation frames arrive, in whatever order, the page
    never throws and every hard drop ends: the session runs to a state with
    a board of 20 rows of 10 cells without a full row, a piece (if any) that
    is a catalog shape inside the walls, and score, energy and level that are
    numbers (never [NaN], never negative, level at least 1). *)
Theorem session_never_throws (e : nat -> nat) (evs : list event) :
  exists (s' : state) (fuel0 : nat),
    (forall fuel : nat, (fuel0 <= fuel)%nat ->
       handleAll fuel evs (initialState e) = Ok s') /\
    sessionOk s'.
Proof. apply session_ok, stateOk_sessionOk, initialState_ok. Qed.

(** X2.  In a state of a session, locking the piece completes at most four
    rows, so [clearLines] reads its table of points inside its five
    entries. *)
Theorem lock_completes_at_most_four_rows (s : state) (p : piece) :
  sessionOk s -> currentPiece s = Some p ->
  exists (g' : board) (points : Z),
    lockCells (grid s) p = Ok g' /\ (countFull g' <= 4)%nat /\
    basePoints !! countFull g' = Some points.
Proof.
  intros (Hg & Hnf & Hp & _) Hcur.
  destruct (lockCells_ok (grid s) p Hg (Hp p Hcur)) as (g' & Hlock & _ & Hcount).
  apply noFullRow_countFull in Hnf.
  destruct (orientation_height (piece_shape p)) as [Hh _]; [apply (Hp p Hcur) | ].
  assert (Hn : (countFull g' <= 4)%nat) by lia.
  exists g'. destruct (countFull g') as [|[|[|[|[|n]]]]]; [ | | | | | lia];
    eexists; (split; [exact Hlock | split; [lia | reflexivity]]).
Qed.

Lemma lock_completes_at_most_four_rows_witness :
  exists (g' : board) (points : Z),
    lockCells (grid (spawnedState KO))
      {| piece_shape := SHAPES KO; piece_color := COLORS KO;
         piece_x := GRID_WIDTH / 2 - 1; piece_y := 0 |} = Ok g' /\
    (countFull g' <= 4)%nat /\ basePoints !! countFull g' = Some points.
Proof.
  exact (lock_completes_at_most_four_rows (spawnedState KO) _
           (stateOk_sessionOk _ (spawnedState_ok KO)) eq_refl).
Defined.





(** X5.  A click on the start button while the game runs restarts it: the
    board is empty, score and energy are 0, the level is 1, the drop
    interval 1000, the treasure locked, a fresh catalog piece is at its
    start position, and the game is running and not paused.  The spawn on
    the empty board never ends the game. *)
Theorem startGame_restarts (s : state) :
  gameStarted s = true -> isPaused s = false ->
  exists (s' : state) (k : shapeKey),
    startGame s = Ok s' /\
    grid s' = resetGrid /\
    score s' = Int 0 /\ energy s' = Int 0 /\ level s' = Int 1 /\
    dropInterval s' = Int 1000 /\ treasureUnlocked s' = false /\
    currentPiece s' = Some {| piece_shape := SHAPES k; piece_color := COLORS k;
                              piece_x := GRID_WIDTH / 2 - 1; piece_y := 0 |} /\
    gameStarted s' = true /\ isPaused s' = false.
Proof.
  intros Hstarted Hpaused. unfold startGame. rewrite Hstarted, Hpaused.
  cbn [andb negb]. cbv zeta.
  change (currentPiece (set_isPaused false (set_gameStarted true (resetGame s))))
    with (@None piece).
  cbv iota. unfold spawnPiece, randomIndex.
  destruct (shapeKeys !! (_ mod length shapeKeys)%nat) as [k|] eqn:Hk.
  - rewrite checkCollision_collides by reflexivity. cbn [bind].
    match goal with
    | |- context [collides ?g ?x ?y ?sh] =>
        assert (Hfree : collides g x y sh = false) by (destruct k; reflexivity)
    end.
    rewrite Hfree. eexists; exists k. split; [reflexivity | ].
    destruct (gameLoop _); repeat split; reflexivity.
  - apply lookup_ge_None in Hk.
    match type of Hk with
    | (_ <= ?n mod _)%nat =>
        pose proof (Nat.mod_upper_bound n (length shapeKeys)) as Hlt
    end.
    simpl in *. lia.
Qed.

Lemma startGame_restarts_witness :
  exists (s' : state) (k : shapeKey),
    startGame (set_gameStarted true (spawnedState KT)) = Ok s' /\
    grid s' = resetGrid /\ score s' = Int 0.
Proof.
  destruct (startGame_restarts (set_gameStarted true (spawnedState KT))
              eq_refl eq_refl) as (s' & k & Hrun & Hgrid & Hscore & _).
  exists s', k. repeat split; assumption.
Defined.

(** X6.  Resuming from a pause restarts the gravity clock: [togglePause]
    stores the time of the resume, and an animation frame whose timestamp is
    not more than the drop interval past it leaves the whole state as it
    is. *)
Theorem resume_restarts_gravity_clock (now timestamp d : Z) (s : state) :
  gameStarted s = true -> isPaused s = true -> dropInterval s = Int d ->
  timestamp - now <= d ->
  isPaused (togglePause now s) = false /\
  lastDropTime (togglePause now s) = now /\
  update timestamp (togglePause now s) = Ok (togglePause now s).
Proof.
  intros Hstarted Hpaused Hd Hle.
  unfold togglePause. rewrite Hstarted, Hpaused. cbn.
  split; [reflexivity | split; [reflexivity | ]].
  unfold update. cbn. rewrite Hstarted. cbn. rewrite Hd. cbn.
  destruct (Z.gtb_spec (timestamp - now) d) as [Hc|_]; [lia | reflexivity].
Qed.

Lemma resume_restarts_gravity_clock_witness :
  update 5900 (togglePause 5000
                 (set_isPaused true (set_gameStarted true (spawnedState KT))))
  = Ok (togglePause 5000
          (set_isPaused true (set_gameStarted true (spawnedState KT)))).
Proof.
  apply (resume_restarts_gravity_clock 5000 5900 1000
           (set_isPaused true (set_gameStarted true (spawnedState KT)))
           eq_refl eq_refl eq_refl).
  lia.
Defined.

(** X7.  When [clearLines] removes rows in a state whose score is a
    non-negative number and whose level is a number from 1 on, the drop
    interval it sets is an integer between 100 and 1000, however high the
    score: the game never drops faster than every 100 time units. *)
Theorem dropInterval_in_range (s : state) :
  length (grid s) = Z.to_nat GRID_HEIGHT ->
  (1 <= countFull (grid s) <= 4)%nat ->
  counterOk 0 (score s) -> counterOk 1 (level s) ->
  exists (s' : state) (d : Z),
    clearLines s = Ok s' /\ dropInterval s' = Int d /\ 100 <= d <= 1000.
Proof.
  intros Hlen Hn Hz Hl. rewrite (clearLines_eq s Hlen).
  set (s0 := set_grid (compacted (grid s)) s).
  destruct (awardLines_fields (countFull (grid s)) s0 ltac:(lia))
    as (_ & _ & _ & _ & _ & Hd).
  rewrite (linePoints_table _ _ Hn) in Hd.
  destruct (basePoints_table _ Hn) as [_ Hb].
  pose proof (mul_counter _ (level s0) Hb Hl) as Hpts.
  destruct (add_counter 0 (score s0) _ (Z.le_refl 0) Hz Hpts) as [Hz' _].
  pose proof (add_one_counter _ (floor_div_counter _ 1000 ltac:(lia) Hz')) as Hl'.
  destruct (interval_range _ (mul_hundred_counter _ (sub_one_counter _ Hl')))
    as (d & Hmax & Hrange).
  eexists; exists d. split; [reflexivity | ].
  split; [rewrite Hd; exact Hmax | exact Hrange].
Qed.

Lemma dropInterval_in_range_witness :
  exists (s' : state) (d : Z),
    clearLines oneRowState = Ok s' /\ dropInterval s' = Int d /\ 100 <= d <= 1000.
Proof.
  apply (dropInterval_in_range oneRowState eq_refl).
  - vm_compute. split; [apply le_n | repeat constructor].
  - simpl. lia.
  - simpl. lia.
Defined.
